(** * Dynamic parking pricing: the three pricing strategies

    A shallow embedding of [src/models/baseline_model.py],
    [src/models/demand_model.py] and [src/models/competitive_model.py].

    Numeric conventions.  Python floats are read as real numbers ([R]):
    rounding, overflow and NaN are outside the model.  Python integers
    (unit ids, queue length, traffic level, occupancy, capacity) are [Z].
    A dictionary subscript [d[k]] is a lookup that may raise [KeyError]; it
    is modelled by [option] and threaded with stdpp's option monad. *)

From Stdlib Require Import Reals Lra Lia.
From stdpp Require Import gmap list sorting.
From stdpp Require Import strings.

Open Scope R_scope.

(** ** Python builtins used by the models *)

Module Py.

(** [min(a, b)]: the first argument is kept unless the second one is
    strictly smaller. *)
Definition min (a b : R) : R := if Rlt_dec b a then b else a.

(** [max(a, b)]: the first argument is kept unless the second one is
    strictly greater. *)
Definition max (a b : R) : R := if Rlt_dec a b then b else a.

(** [sum(l)] and [numpy.mean(l)]. *)
Definition sum (l : list R) : R := foldr Rplus 0 l.
Definition mean (l : list R) : R := sum l / INR (length l).

(** [d.get(k, dflt)]. *)
Definition get {A} (d : gmap Z A) (k : Z) (dflt : A) : A :=
  match d !! k with Some v => v | None => dflt end.

(** [l[:n]]. *)
Definition slice_to {A} (n : nat) (l : list A) : list A := take n l.

End Py.

(** ** The price ledger

    Every model class owns the same two dictionaries, [current_prices] and
    [price_history], and repeats the same statements on them: the
    auto-vivification at the top of [update_price] and the two writes at its
    end.  They are embedded once. *)

Record ledger : Type := Ledger {
  current_prices : gmap Z R;
  price_history  : gmap Z (list R)
}.

Module Ledger.

Definition empty : ledger := Ledger ∅ ∅.

(** [for space_id in space_ids: current_prices[space_id] = base_price;
    price_history[space_id] = [base_price]] *)
Fixpoint initialize (base_price : R) (space_ids : list Z) (l : ledger) : ledger :=
  match space_ids with
  | [] => l
  | x :: rest =>
      initialize base_price rest
        (Ledger (<[x := base_price]> (current_prices l))
                (<[x := [base_price]]> (price_history l)))
  end.

(** [if space_id not in self.current_prices: ...] *)
Definition vivify (base_price : R) (x : Z) (l : ledger) : ledger :=
  match current_prices l !! x with
  | Some _ => l
  | None => Ledger (<[x := base_price]> (current_prices l))
                   (<[x := [base_price]]> (price_history l))
  end.

(** [self.current_prices[space_id] = p;
    self.price_history[space_id].append(p)].  The subscript of
    [price_history] raises [KeyError] when the unit has no history. *)
Definition record (x : Z) (p : R) (l : ledger) : option ledger :=
  h ← price_history l !! x;
  Some (Ledger (<[x := p]> (current_prices l))
               (<[x := h ++ [p]]> (price_history l))).

(** [get_current_price] and [get_price_history] of every model. *)
Definition get_current_price (base_price : R) (l : ledger) (x : Z) : R :=
  Py.get (current_prices l) x base_price.
Definition get_price_history (base_price : R) (l : ledger) (x : Z) : list R :=
  Py.get (price_history l) x [base_price].

(** Every unit that has a current price has a history: the states the
    methods of the classes build from an empty ledger. *)
Definition ok (l : ledger) : Prop :=
  ∀ x, is_Some (current_prices l !! x) ↔ is_Some (price_history l !! x).

End Ledger.

(** ** BaselineLinearModel *)

Module Baseline.

Record model : Type := Model {
  base_price : R;
  alpha : R;
  prices : ledger
}.

(** [__init__(base_price=10.0, alpha=0.5)] *)
Definition new (base_price alpha : R) : model := Model base_price alpha Ledger.empty.
Definition default : model := new 10.0 0.5.

Definition initialize_prices (m : model) (space_ids : list Z) : model :=
  Model (base_price m) (alpha m) (Ledger.initialize (base_price m) space_ids (prices m)).

(** The soft-bound step of [update_price] (the [if]/[elif] on
    [new_price]), before the hard clamp. *)
Definition dampen (min_price max_price new_price : R) : R :=
  if Rlt_dec new_price min_price then
    min_price + (new_price - min_price) * 0.1
  else if Rgt_dec new_price max_price then
    max_price - (new_price - max_price) * 0.1
  else new_price.

(** The candidate price [current_price + alpha * occupancy_rate]. *)
Definition candidate (m : model) (current_price occupancy_rate : R) : R :=
  let price_change := alpha m * occupancy_rate in
  current_price + price_change.

Definition next_price (m : model) (current_price occupancy_rate : R) : R :=
  let new_price := candidate m current_price occupancy_rate in
  let min_price := base_price m * 0.5 in
  let max_price := base_price m * 2.0 in
  let new_price := dampen min_price max_price new_price in
  Py.max min_price (Py.min new_price max_price).

Definition update_price (m : model) (space_id : Z) (occupancy_rate : R)
  : option (R * model) :=
  let l := Ledger.vivify (base_price m) space_id (prices m) in
  current_price ← current_prices l !! space_id;
  let new_price := next_price m current_price occupancy_rate in
  l' ← Ledger.record space_id new_price l;
  Some (new_price, Model (base_price m) (alpha m) l').

Definition get_current_price (m : model) (x : Z) : R :=
  Ledger.get_current_price (base_price m) (prices m) x.
Definition get_price_history (m : model) (x : Z) : list R :=
  Ledger.get_price_history (base_price m) (prices m) x.

End Baseline.

(** ** DemandBasedModel *)

(** The feature inputs shared by the demand and the competitive model. *)
Record features : Type := Features {
  occupancy_rate : R;
  queue_length : Z;
  traffic_level : Z;
  is_special_day : bool;
  vehicle_weight : R
}.

Module Demand.

Record model : Type := Model {
  base_price : R;
  prices : ledger
}.

(** The parameters [__init__] fixes. *)
Definition alpha : R := 0.6.
Definition beta : R := 0.3.
Definition gamma : R := 0.2.
Definition delta : R := 0.4.
Definition epsilon : R := 0.1.
Definition lambda_param : R := 0.8.

Definition new (base_price : R) : model := Model base_price Ledger.empty.
Definition default : model := new 10.0.

Definition initialize_prices (m : model) (space_ids : list Z) : model :=
  Model (base_price m) (Ledger.initialize (base_price m) space_ids (prices m)).

Definition calculate_demand (f : features) : R :=
  let normalized_queue := Py.min (IZR (queue_length f) / 20.0) 1.0 in
  let normalized_traffic := (IZR (traffic_level f) - 1) / 9.0 in
  let special_day_factor := if is_special_day f then 1.0 else 0.0 in
  alpha * occupancy_rate f +
  beta * normalized_queue -
  gamma * normalized_traffic +
  delta * special_day_factor +
  epsilon * vehicle_weight f.

Definition normalize_demand (demand : R) : R := tanh demand.

(** The price [update_price] computes from the features alone. *)
Definition next_price (base_price : R) (f : features) : R :=
  let demand := calculate_demand f in
  let normalized_demand := normalize_demand demand in
  let new_price := base_price * (1 + lambda_param * normalized_demand) in
  Py.max (base_price * 0.5) (Py.min new_price (base_price * 2.0)).

Definition update_price (m : model) (space_id : Z) (f : features)
  : option (R * model) :=
  let l := Ledger.vivify (base_price m) space_id (prices m) in
  let new_price := next_price (base_price m) f in
  l' ← Ledger.record space_id new_price l;
  Some (new_price, Model (base_price m) l').

Definition get_current_price (m : model) (x : Z) : R :=
  Ledger.get_current_price (base_price m) (prices m) x.
Definition get_price_history (m : model) (x : Z) : list R :=
  Ledger.get_price_history (base_price m) (prices m) x.

End Demand.

(** ** CompetitivePricingModel *)

Module Competitive.

(** A value of the [locations] dictionary. *)
Record location : Type := Location {
  latitude : R;
  longitude : R
}.

(** An element of the list [find_competitors] returns. *)
Record competitor : Type := Competitor {
  space_id : Z;
  distance : R;
  price : R
}.

(** An element of the list [suggest_rerouting] returns. *)
Record suggestion : Type := Suggestion {
  sug_space_id : Z;
  distance_km : R;
  sug_price : R;
  savings : R
}.

(** [locations] is iterated with [items()], whose order (the insertion
    order of the dictionary) decides ties of the sort: it is kept as the
    list of its items. *)
Record model : Type := Model {
  base_price : R;
  prices : ledger;
  locations : list (Z * location)
}.

Definition alpha : R := 0.6.
Definition beta : R := 0.3.
Definition gamma : R := 0.2.
Definition delta : R := 0.4.
Definition epsilon : R := 0.1.
Definition lambda_param : R := 0.8.
Definition competition_radius : R := 0.005.
Definition competition_weight : R := 0.3.
Definition demand_weight : R := 0.7.

Definition new (base_price : R) : model := Model base_price Ledger.empty [].
Definition default : model := new 10.0.

Definition initialize_prices (m : model) (space_ids : list Z)
    (locations_dict : list (Z * location)) : model :=
  Model (base_price m) (Ledger.initialize (base_price m) space_ids (prices m))
        locations_dict.

(** [self.locations[space_id]] and [space_id in self.locations]. *)
Fixpoint lookup_location (x : Z) (d : list (Z * location)) : option location :=
  match d with
  | [] => None
  | (y, loc) :: rest => if decide (y = x) then Some loc else lookup_location x rest
  end.

Definition calculate_distance (lat1 lon1 lat2 lon2 : R) : R :=
  sqrt ((lat1 - lat2) ^ 2 + (lon1 - lon2) ^ 2).

(** The body of the [for] loop of [find_competitors] for one item:
    the candidate it appends, if any. *)
Definition candidate (m : model) (x : Z) (current_location : location)
    (item : Z * location) : option competitor :=
  let '(other_space_id, other_location) := item in
  if decide (other_space_id = x) then None
  else
    let distance :=
      calculate_distance (latitude current_location) (longitude current_location)
                         (latitude other_location) (longitude other_location) in
    if Rle_dec distance competition_radius then
      Some (Competitor other_space_id distance
              (Py.get (current_prices (prices m)) other_space_id (base_price m)))
    else None.

(** [sorted(competitors, key=lambda x: x['distance'])]: a stable sort;
    an element goes before the first one whose key is not smaller. *)
Fixpoint insert_by_distance (c : competitor) (l : list competitor) : list competitor :=
  match l with
  | [] => [c]
  | d :: rest =>
      if Rle_dec (distance c) (distance d) then c :: d :: rest
      else d :: insert_by_distance c rest
  end.

Definition sorted_by_distance (l : list competitor) : list competitor :=
  foldr insert_by_distance [] l.

Definition find_competitors (m : model) (x : Z) : list competitor :=
  match lookup_location x (locations m) with
  | None => []
  | Some current_location =>
      let competitors := omap (candidate m x current_location) (locations m) in
      sorted_by_distance competitors
  end.

(** This class folds [tanh] into [calculate_demand]. *)
Definition calculate_demand (f : features) : R :=
  let normalized_queue := Py.min (IZR (queue_length f) / 20.0) 1.0 in
  let normalized_traffic := (IZR (traffic_level f) - 1) / 9.0 in
  let special_day_factor := if is_special_day f then 1.0 else 0.0 in
  let demand :=
    alpha * occupancy_rate f +
    beta * normalized_queue -
    gamma * normalized_traffic +
    delta * special_day_factor +
    epsilon * vehicle_weight f in
  tanh demand.

Definition calculate_competitive_adjustment (m : model) (x : Z)
    (occupancy capacity : Z) : R :=
  let competitors := find_competitors m x in
  match competitors with
  | [] => 0.0
  | _ :: _ =>
      let avg_price := Py.mean (price <$> competitors) in
      let current_price := Py.get (current_prices (prices m)) x (base_price m) in
      if decide (occupancy >= capacity)%Z then
        (if Rlt_dec avg_price current_price then -0.1 else 0.05)
      else
        let price_ratio := avg_price / current_price in
        (price_ratio - 1) * 0.2
  end.

Definition demand_price (base_price : R) (f : features) : R :=
  base_price * (1 + lambda_param * calculate_demand f).

Definition update_price (m : model) (x : Z) (f : features)
    (occupancy capacity : Z) : option (R * model) :=
  let m1 := Model (base_price m) (Ledger.vivify (base_price m) x (prices m))
                  (locations m) in
  let demand_price := demand_price (base_price m) f in
  let adjustment := calculate_competitive_adjustment m1 x occupancy capacity in
  current_price ← current_prices (prices m1) !! x;
  let competitive_price := current_price * (1 + adjustment) in
  let final_price :=
    demand_weight * demand_price + competition_weight * competitive_price in
  let final_price :=
    Py.max (base_price m * 0.5) (Py.min final_price (base_price m * 2.0)) in
  l' ← Ledger.record x final_price (prices m1);
  Some (final_price, Model (base_price m) l' (locations m)).

Definition suggest_rerouting (m : model) (x : Z) (occupancy capacity : Z)
    : list suggestion :=
  if decide (occupancy < capacity)%Z then []
  else
    let competitors := find_competitors m x in
    let current_price := Py.get (current_prices (prices m)) x (base_price m) in
    let suggestions :=
      omap (λ comp,
              if Rle_dec (price comp) (current_price * 1.1) then
                Some (Suggestion (space_id comp) (distance comp * 111)
                                 (price comp) (current_price - price comp))
              else None)
           competitors in
    Py.slice_to 3 suggestions.

Definition get_current_price (m : model) (x : Z) : R :=
  Ledger.get_current_price (base_price m) (prices m) x.
Definition get_price_history (m : model) (x : Z) : list R :=
  Ledger.get_price_history (base_price m) (prices m) x.

(** The order of the result of [find_competitors]. *)
Definition nearer (a b : competitor) : Prop := distance a <= distance b.

(** Distance between two stored locations. *)
Definition apart (a b : location) : R :=
  calculate_distance (latitude a) (longitude a) (latitude b) (longitude b).

End Competitive.

(** ** The driver's dispatch

    [main.py] and [utils/pathway_helpers.py] feed one record to each model.
    A strategy is one of the three models; [Engine.update_price] passes each
    the arguments the driver passes it. *)

Record row : Type := Row {
  feats : features;
  occupancy : Z;
  capacity : Z
}.

Inductive strategy : Type :=
  | BaselineS (m : Baseline.model)
  | DemandS (m : Demand.model)
  | CompetitiveS (m : Competitive.model).

Module Engine.

Definition base_price (s : strategy) : R :=
  match s with
  | BaselineS m => Baseline.base_price m
  | DemandS m => Demand.base_price m
  | CompetitiveS m => Competitive.base_price m
  end.

Definition prices (s : strategy) : ledger :=
  match s with
  | BaselineS m => Baseline.prices m
  | DemandS m => Demand.prices m
  | CompetitiveS m => Competitive.prices m
  end.

(** Only the competitive model keeps locations. *)
Definition locations (s : strategy) : list (Z * Competitive.location) :=
  match s with
  | CompetitiveS m => Competitive.locations m
  | _ => []
  end.

Definition update_price (s : strategy) (x : Z) (r : row) : option (R * strategy) :=
  match s with
  | BaselineS m =>
      '(p, m') ← Baseline.update_price m x (occupancy_rate (feats r));
      Some (p, BaselineS m')
  | DemandS m =>
      '(p, m') ← Demand.update_price m x (feats r);
      Some (p, DemandS m')
  | CompetitiveS m =>
      '(p, m') ← Competitive.update_price m x (feats r) (occupancy r) (capacity r);
      Some (p, CompetitiveS m')
  end.

Definition get_current_price (s : strategy) (x : Z) : R :=
  Ledger.get_current_price (base_price s) (prices s) x.
Definition get_price_history (s : strategy) (x : Z) : list R :=
  Ledger.get_price_history (base_price s) (prices s) x.

(** The records of a stream, processed one at a time in order. *)
Fixpoint run (s : strategy) (stream : list (Z * row)) : option strategy :=
  match stream with
  | [] => Some s
  | (x, r) :: rest =>
      '(_, s') ← update_price s x r;
      run s' rest
  end.

(** How many records of the stream are for unit [x]. *)
Definition updates_of (x : Z) (stream : list (Z * row)) : nat :=
  length (filter (λ e, e.1 = x) stream).

End Engine.

(** ** Vocabulary of the statements *)

#[local] Instance Rle_decision (a b : R) : Decision (a <= b) := Rle_dec a b.
#[local] Instance Req_decision : EqDecision R := Req_dec_T.

Module Spec.

(** The competitive model's blend of demand price and competitive price,
    before the hard clamp, read on the state before the call. *)
Definition blend (m : Competitive.model) (x : Z) (f : features)
    (occupancy capacity : Z) : R :=
  Competitive.demand_weight * Competitive.demand_price (Competitive.base_price m) f +
  Competitive.competition_weight *
    (Competitive.get_current_price m x *
     (1 + Competitive.calculate_competitive_adjustment m x occupancy capacity)).

(** The price each strategy returns. *)
Definition price_of (s : strategy) (x : Z) (r : row) : R :=
  match s with
  | BaselineS m =>
      Baseline.next_price m (Baseline.get_current_price m x) (occupancy_rate (feats r))
  | DemandS m => Demand.next_price (Demand.base_price m) (feats r)
  | CompetitiveS m =>
      Py.max (Competitive.base_price m * 0.5)
        (Py.min (blend m x (feats r) (occupancy r) (capacity r))
                (Competitive.base_price m * 2.0))
  end.

Definition with_prices (s : strategy) (l : ledger) : strategy :=
  match s with
  | BaselineS m => BaselineS (Baseline.Model (Baseline.base_price m) (Baseline.alpha m) l)
  | DemandS m => DemandS (Demand.Model (Demand.base_price m) l)
  | CompetitiveS m =>
      CompetitiveS (Competitive.Model (Competitive.base_price m) l (Competitive.locations m))
  end.

(** What a unit's history looks like after [n] of its updates. *)
Definition history_after (n : nat) (s : strategy) (x : Z) : Prop :=
  length (Engine.get_price_history s x) = S n ∧
  head (Engine.get_price_history s x) = Some (Engine.base_price s) ∧
  last (Engine.get_price_history s x) = Some (Engine.get_current_price s x) ∧
  ((0 < n)%nat → is_Some (current_prices (Engine.prices s) !! x)).

(** The ranges the feed guarantees for a feature record. *)
Definition valid_features (f : features) : Prop :=
  0 <= occupancy_rate f <= 1 ∧
  (0 <= queue_length f)%Z ∧
  (1 <= traffic_level f <= 10)%Z ∧
  0 < vehicle_weight f.

(** The competitors [suggest_rerouting] keeps, and what it reports for
    one of them. *)
Definition qualifies (current_price : R) (c : Competitive.competitor) : Prop :=
  Competitive.price c <= current_price * 1.1.

Definition to_suggestion (current_price : R) (c : Competitive.competitor)
    : Competitive.suggestion :=
  Competitive.Suggestion (Competitive.space_id c) (Competitive.distance c * 111)
    (Competitive.price c) (current_price - Competitive.price c).

End Spec.

(** ** Concrete states and records *)

Module Scenario.

Definition f0 : features := Features 0.8 5 3 false 1.0.
Definition row0 : row := Row f0 40 50.

(** A record whose capacity is zero. *)
Definition row_no_capacity : row := Row f0 3 0.

(** Two units 0.001 degrees apart, both at the base price. *)
Definition locs2 : list (Z * Competitive.location) :=
  [(1%Z, Competitive.Location 0 0); (2%Z, Competitive.Location 0 0.001)].
Definition m2 : Competitive.model :=
  Competitive.initialize_prices Competitive.default [1%Z; 2%Z] locs2.

(** A baseline model whose unit 1 has reached the ceiling of 20. *)
Definition at_ceiling : Baseline.model :=
  Baseline.Model 10.0 0.5 (Ledger {[1%Z := 20]} {[1%Z := [10.0; 20]]}).

(** One initialised unit, no locations. *)
Definition m1 : Competitive.model :=
  Competitive.initialize_prices Competitive.default [1%Z] [].

End Scenario.

(** ** Vocabulary of the further properties *)

Module Props.

(** A price within the bounds of base price [b]. *)
Definition within_bounds (b p : R) : Prop := b * 0.5 <= p <= b * 2.0.

(** Every stored price and every history entry is within the bounds. *)
Definition bounded (b : R) (l : ledger) : Prop :=
  (∀ x c, current_prices l !! x = Some c → within_bounds b c) ∧
  (∀ x h, price_history l !! x = Some h → Forall (within_bounds b) h).

(** [f] signals no more demand than [g]: no higher occupancy, queue,
    weight or special day, and no lower traffic. *)
Definition features_le (f g : features) : Prop :=
  occupancy_rate f <= occupancy_rate g ∧
  (queue_length f <= queue_length g)%Z ∧
  (traffic_level g <= traffic_level f)%Z ∧
  (is_special_day f = true → is_special_day g = true) ∧
  vehicle_weight f <= vehicle_weight g.

(** The three [initialize_prices], as [initialize_models] of [main.py]
    calls them: only the competitive model takes the locations. *)
Definition initialize_prices (s : strategy) (space_ids : list Z)
    (locations_dict : list (Z * Competitive.location)) : strategy :=
  match s with
  | BaselineS m => BaselineS (Baseline.initialize_prices m space_ids)
  | DemandS m => DemandS (Demand.initialize_prices m space_ids)
  | CompetitiveS m => CompetitiveS (Competitive.initialize_prices m space_ids locations_dict)
  end.

End Props.

(** ** DataProcessor.preprocess_data

    The column operations of [preprocess_data] that produce what the models
    read.  A pandas column is the list of its cells; a cell of an object
    column that is missing (NaN) or is not a string is [None]. *)

Module DataProcessor.

(** [d[k]] of a dictionary with string keys, written as its items. *)
Fixpoint dict_get {V} (d : list (string * V)) (k : string) : option V :=
  match d with
  | [] => None
  | (k', v) :: rest => if decide (k' = k) then Some v else dict_get rest k
  end.

(** [Series.map(d)] on one cell: a cell that is not a key becomes NaN. *)
Definition series_map {V} (d : list (string * V)) (cell : option string) : option V :=
  match cell with
  | Some k => dict_get d k
  | None => None
  end.

(** [Series.fillna(v)] on one cell. *)
Definition fillna {V} (v : V) (cell : option V) : V :=
  match cell with
  | Some w => w
  | None => v
  end.

(** [np.clip(x, lo, hi)] on one integer. *)
Definition np_clip (x lo hi : Z) : Z := Z.min (Z.max x lo) hi.

Definition vehicle_type_mapping : list (string * string) :=
  [("Car", "car"); ("car", "car"); ("CAR", "car");
   ("Bike", "bike"); ("bike", "bike"); ("BIKE", "bike");
   ("Truck", "truck"); ("truck", "truck"); ("TRUCK", "truck");
   ("Motorcycle", "bike"); ("motorcycle", "bike");
   ("Bus", "truck"); ("bus", "truck")]%string.

Definition vehicle_weights : list (string * R) :=
  [("car", 1.0); ("bike", 0.5); ("truck", 1.5)]%string.

Definition traffic_mapping : list (string * Z) :=
  [("Low", 1); ("low", 1); ("LOW", 1);
   ("Medium", 5); ("medium", 5); ("MEDIUM", 5);
   ("High", 10); ("high", 10); ("HIGH", 10);
   ("Light", 2); ("light", 2);
   ("Moderate", 6); ("moderate", 6);
   ("Heavy", 9); ("heavy", 9);
   ("Severe", 10); ("severe", 10)]%string%Z.

(** [df['vehicle_type'].map(vehicle_type_mapping).fillna('car')] *)
Definition vehicle_type (raw : option string) : string :=
  fillna "car"%string (series_map vehicle_type_mapping raw).

(** [df['vehicle_type'].map(vehicle_weights)], on the normalised type;
    [None] is NaN. *)
Definition vehicle_weight (raw : option string) : option R :=
  series_map vehicle_weights (Some (vehicle_type raw)).

(** The [traffic_level] column: of dtype object, or of integers. *)
Inductive traffic_column : Type :=
  | ObjectColumn (cells : list (option string))
  | IntColumn (cells : list Z).

(** [if dtype == 'object': map(traffic_mapping).fillna(5)], then
    [np.clip(..., 1, 10)]. *)
Definition traffic_level (c : traffic_column) : list Z :=
  let mapped :=
    match c with
    | ObjectColumn cells => (λ cell, fillna 5%Z (series_map traffic_mapping cell)) <$> cells
    | IntColumn cells => cells
    end in
  (λ v, np_clip v 1 10) <$> mapped.

(** [df['occupancy'] / df['capacity']] on one row. *)
Definition occupancy_rate (occupancy capacity : Z) : R := IZR occupancy / IZR capacity.

(** [if df['space_id'].min() == 1: df['space_id'] = df['space_id'] - 1] *)
Definition space_id (ids : list Z) : list Z :=
  match ids with
  | [] => ids
  | x :: rest =>
      if decide (foldr Z.min x rest = 1%Z) then (λ i, (i - 1)%Z) <$> ids else ids
  end.

End DataProcessor.

(** ** ParkingPricingSystem

    [main.py]: the three models, their initialisation from the dataset and
    the simulation loop.  A dataset row is taken after the conversions at the
    top of the loop body ([int(...)], [float(...)], [bool(...)]); the
    timestamp, which no model reads, is left out. *)

#[local] Instance Rlt_decision (a b : R) : Decision (a < b) := Rlt_dec a b.

Record dataset_row : Type := DatasetRow {
  row_space_id : Z;
  row_latitude : R;
  row_longitude : R;
  row_data : row
}.

(** An element of [results]. *)
Record price_record : Type := PriceRecord {
  pr_space_id : Z;
  pr_occupancy_rate : R;
  pr_queue_length : Z;
  pr_traffic_level : Z;
  pr_is_special_day : bool;
  baseline_price : R;
  demand_price : R;
  competitive_price : R
}.

Record system : Type := System {
  baseline : Baseline.model;
  demand : Demand.model;
  competitive : Competitive.model
}.

Module System.

Definition base_price : R := 10.0.

(** [self.models] of [__init__]. *)
Definition new : system :=
  System (Baseline.new base_price 0.5) (Demand.new base_price) (Competitive.new base_price).

(** [sorted(self.dataset['space_id'].unique())] *)
Definition space_ids (dataset : list dataset_row) : list Z :=
  merge_sort Z.le (remove_dups (row_space_id <$> dataset)).

(** [self.dataset[self.dataset['space_id'] == space_id].iloc[0]];
    [iloc[0]] raises on an empty selection. *)
Definition first_row (x : Z) (dataset : list dataset_row) : option dataset_row :=
  snd <$> list_find (λ r, row_space_id r = x) dataset.

Definition locations_dict (dataset : list dataset_row)
    : option (list (Z * Competitive.location)) :=
  mapM (λ x, space_data ← first_row x dataset;
             Some (x, Competitive.Location (row_latitude space_data)
                                           (row_longitude space_data)))
       (space_ids dataset).

Definition initialize_models (sys : system) (dataset : list dataset_row) : option system :=
  locs ← locations_dict dataset;
  Some (System (Baseline.initialize_prices (baseline sys) (space_ids dataset))
               (Demand.initialize_prices (demand sys) (space_ids dataset))
               (Competitive.initialize_prices (competitive sys) (space_ids dataset) locs)).

(** What a raising [update_price] leaves behind: the unit was vivified,
    and when it is the final append that raises, the current price was
    already written. *)
Definition failed_record (x : Z) (p : R) (l : ledger) : ledger :=
  Ledger (<[x := p]> (current_prices l)) (price_history l).

Definition baseline_after_raise (m : Baseline.model) (x : Z) (occupancy_rate : R)
    : Baseline.model :=
  let l := Ledger.vivify (Baseline.base_price m) x (Baseline.prices m) in
  match current_prices l !! x with
  | None => Baseline.Model (Baseline.base_price m) (Baseline.alpha m) l
  | Some current_price =>
      Baseline.Model (Baseline.base_price m) (Baseline.alpha m)
        (failed_record x (Baseline.next_price m current_price occupancy_rate) l)
  end.

Definition demand_after_raise (m : Demand.model) (x : Z) (f : features) : Demand.model :=
  let l := Ledger.vivify (Demand.base_price m) x (Demand.prices m) in
  Demand.Model (Demand.base_price m)
    (failed_record x (Demand.next_price (Demand.base_price m) f) l).

Definition competitive_after_raise (m : Competitive.model) (x : Z) (f : features)
    (occupancy capacity : Z) : Competitive.model :=
  let l := Ledger.vivify (Competitive.base_price m) x (Competitive.prices m) in
  let m1 := Competitive.Model (Competitive.base_price m) l (Competitive.locations m) in
  match current_prices l !! x with
  | None => m1
  | Some current_price =>
      let adjustment :=
        Competitive.calculate_competitive_adjustment m1 x occupancy capacity in
      let final_price :=
        Competitive.demand_weight * Competitive.demand_price (Competitive.base_price m) f +
        Competitive.competition_weight * (current_price * (1 + adjustment)) in
      Competitive.Model (Competitive.base_price m)
        (failed_record x
           (Py.max (Competitive.base_price m * 0.5)
              (Py.min final_price (Competitive.base_price m * 2.0))) l)
        (Competitive.locations m)
  end.

(** The body of the [try] of [run_demo_simulation] for one row: the
    record to append, or [None] when an exception was caught, and the
    models as the row leaves them. *)
Definition process_row (sys : system) (r : dataset_row) : option price_record * system :=
  let x := row_space_id r in
  let f := feats (row_data r) in
  match Baseline.update_price (baseline sys) x (occupancy_rate f) with
  | None =>
      (None, System (baseline_after_raise (baseline sys) x (occupancy_rate f))
                    (demand sys) (competitive sys))
  | Some (bp, b') =>
      match Demand.update_price (demand sys) x f with
      | None => (None, System b' (demand_after_raise (demand sys) x f) (competitive sys))
      | Some (dp, d') =>
          match Competitive.update_price (competitive sys) x f
                  (occupancy (row_data r)) (capacity (row_data r)) with
          | None =>
              (None, System b' d'
                       (competitive_after_raise (competitive sys) x f
                          (occupancy (row_data r)) (capacity (row_data r))))
          | Some (cp, c') =>
              (Some (PriceRecord x (occupancy_rate f) (queue_length f) (traffic_level f)
                       (is_special_day f) bp dp cp),
               System b' d' c')
          end
      end
  end.

(** The [for] loop over the sample, [results] in the order appended. *)
Fixpoint simulate (sys : system) (sample_data : list dataset_row)
    : list price_record * system :=
  match sample_data with
  | [] => ([], sys)
  | r :: rest =>
      let '(res, sys1) := process_row sys r in
      let '(results, sys2) := simulate sys1 rest in
      (match res with Some pr => pr :: results | None => results end, sys2)
  end.

(** [run_demo_simulation]: the first [min(500, len(dataset))] rows;
    [None] when no result was generated. *)
Definition run_demo_simulation (sys : system) (dataset : list dataset_row)
    : option (list price_record) * system :=
  let sample_size := Nat.min 500 (length dataset) in
  let sample_data := take sample_size dataset in
  let '(results, sys') := simulate sys sample_data in
  (match results with [] => None | _ :: _ => Some results end, sys').

(** The bounds validation of [display_summary] for one price column. *)
Definition min_allowed : R := base_price * 0.5.
Definition max_allowed : R := base_price * 2.0.

Definition within_bounds (col : list R) : bool :=
  forallb (λ p, bool_decide (min_allowed <= p) && bool_decide (p <= max_allowed)) col.

Definition violations (col : list R) : nat :=
  length (filter (λ p, p < min_allowed ∨ max_allowed < p) col).

End System.

Module SystemProps.

(** The three ledgers are well formed. *)
Definition ledgers_ok (sys : system) : Prop :=
  Ledger.ok (Baseline.prices (baseline sys)) ∧
  Ledger.ok (Demand.prices (demand sys)) ∧
  Ledger.ok (Competitive.prices (competitive sys)).

(** The three models have the base price of the system. *)
Definition configured (sys : system) : Prop :=
  Baseline.base_price (baseline sys) = System.base_price ∧
  Demand.base_price (demand sys) = System.base_price ∧
  Competitive.base_price (competitive sys) = System.base_price.

(** The three prices of a result are the current prices the models hold
    for its unit. *)
Definition recorded (sys : system) (pr : price_record) : Prop :=
  Baseline.get_current_price (baseline sys) (pr_space_id pr) = baseline_price pr ∧
  Demand.get_current_price (demand sys) (pr_space_id pr) = demand_price pr ∧
  Competitive.get_current_price (competitive sys) (pr_space_id pr) = competitive_price pr.

(** A result carries the unit and the features of its row. *)
Definition echoes (pr : price_record) (r : dataset_row) : Prop :=
  pr_space_id pr = row_space_id r ∧
  pr_occupancy_rate pr = occupancy_rate (feats (row_data r)) ∧
  pr_queue_length pr = queue_length (feats (row_data r)) ∧
  pr_traffic_level pr = traffic_level (feats (row_data r)) ∧
  pr_is_special_day pr = is_special_day (feats (row_data r)).

End SystemProps.

(** ** The demand score written out

    The weighted sum of [calculate_demand] with the numbers of [__init__],
    before [tanh], written with the library's minimum: the formula against
    which the statements about the demand price are made. *)

Module Formulas.

Definition demand_score (f : features) : R :=
  0.6 * occupancy_rate f +
  0.3 * Rmin (IZR (queue_length f) / 20) 1 -
  0.2 * ((IZR (traffic_level f) - 1) / 9) +
  0.4 * (if is_special_day f then 1 else 0) +
  0.1 * vehicle_weight f.

(** The level of a traffic word, as the table of [preprocess_data] gives
    it; a word the table does not hold gets 5. *)
Definition word_level (w : string) : Z :=
  if bool_decide (w ∈ ["Low"; "low"; "LOW"]%string) then 1
  else if bool_decide (w ∈ ["Light"; "light"]%string) then 2
  else if bool_decide (w ∈ ["Medium"; "medium"; "MEDIUM"]%string) then 5
  else if bool_decide (w ∈ ["Moderate"; "moderate"]%string) then 6
  else if bool_decide (w ∈ ["Heavy"; "heavy"]%string) then 9
  else if bool_decide (w ∈ ["High"; "high"; "HIGH"; "Severe"; "severe"]%string) then 10
  else 5.

(** [np.clip(v, 1, 10)] written by cases. *)
Definition clipped (v : Z) : Z :=
  if decide (v < 1)%Z then 1%Z else if decide (10 < v)%Z then 10%Z else v.

End Formulas.

(** ** The models on floats with infinities and NaN

    Above, a float is a real number.  To follow an infinity or a NaN
    through [update_price] the same methods are embedded a second time on
    floats that are a real number, an infinity or NaN: arithmetic on real
    numbers is exact as before, and the infinities and NaN follow IEEE 754
    ([inf - inf], [0 * inf] and [inf / inf] are NaN, NaN propagates, every
    comparison with NaN is false).  Zero carries no sign.  The base price,
    [alpha] and the locations, which are no inputs of [update_price], stay
    real numbers. *)

Inductive xfloat : Type :=
  | Fin (r : R)
  | PInf
  | NInf
  | NaN.

Module Xf.

Definition opp (a : xfloat) : xfloat :=
  match a with
  | Fin x => Fin (- x)
  | PInf => NInf
  | NInf => PInf
  | NaN => NaN
  end.

Definition add (a b : xfloat) : xfloat :=
  match a, b with
  | NaN, _ | _, NaN => NaN
  | Fin x, Fin y => Fin (x + y)
  | PInf, NInf | NInf, PInf => NaN
  | PInf, _ | _, PInf => PInf
  | NInf, _ | _, NInf => NInf
  end.

Definition sub (a b : xfloat) : xfloat := add a (opp b).

(** An infinity of the given sign times, or divided by, the sign of [y]. *)
Definition signed_inf (positive : bool) (y : R) : xfloat :=
  if Rlt_dec 0 y then (if positive then PInf else NInf)
  else if Rlt_dec y 0 then (if positive then NInf else PInf)
  else NaN.

Definition mul (a b : xfloat) : xfloat :=
  match a, b with
  | NaN, _ | _, NaN => NaN
  | Fin x, Fin y => Fin (x * y)
  | PInf, Fin y | Fin y, PInf => signed_inf true y
  | NInf, Fin y | Fin y, NInf => signed_inf false y
  | PInf, PInf | NInf, NInf => PInf
  | PInf, NInf | NInf, PInf => NInf
  end.

(** Division as numpy does it: a division by zero raises nothing and gives
    an infinity, or NaN for [0 / 0]. *)
Definition div (a b : xfloat) : xfloat :=
  match a, b with
  | NaN, _ | _, NaN => NaN
  | Fin x, Fin y =>
      if Req_dec_T y 0 then
        (if Rlt_dec 0 x then PInf else if Rlt_dec x 0 then NInf else NaN)
      else Fin (x / y)
  | Fin _, PInf | Fin _, NInf => Fin 0
  | PInf, Fin y => if Rlt_dec y 0 then NInf else PInf
  | NInf, Fin y => if Rlt_dec y 0 then PInf else NInf
  | PInf, PInf | PInf, NInf | NInf, PInf | NInf, NInf => NaN
  end.

(** [a < b] *)
Definition lt (a b : xfloat) : bool :=
  match a, b with
  | NaN, _ | _, NaN => false
  | Fin x, Fin y => if Rlt_dec x y then true else false
  | NInf, NInf => false
  | NInf, _ => true
  | _, NInf => false
  | PInf, _ => false
  | _, PInf => true
  end.

(** [numpy.tanh] *)
Definition tanh (a : xfloat) : xfloat :=
  match a with
  | Fin x => Fin (Rtrigo_def.tanh x)
  | PInf => Fin 1
  | NInf => Fin (-1)
  | NaN => NaN
  end.

(** The builtins [min(a, b)] and [max(a, b)]: the first argument is kept
    unless the comparison with the second one holds. *)
Definition min (a b : xfloat) : xfloat := if lt b a then b else a.
Definition max (a b : xfloat) : xfloat := if lt a b then b else a.

(** [numpy.mean(l)] *)
Definition sum (l : list xfloat) : xfloat := foldl add (Fin 0) l.
Definition mean (l : list xfloat) : xfloat := div (sum l) (Fin (INR (length l))).

Definition get (d : gmap Z xfloat) (k : Z) (dflt : xfloat) : xfloat :=
  match d !! k with Some v => v | None => dflt end.

End Xf.

Record xledger : Type := XLedger {
  xcurrent_prices : gmap Z xfloat;
  xprice_history : gmap Z (list xfloat)
}.

Module XLedger.

Definition empty : xledger := XLedger ∅ ∅.

Fixpoint initialize (base_price : R) (space_ids : list Z) (l : xledger) : xledger :=
  match space_ids with
  | [] => l
  | x :: rest =>
      initialize base_price rest
        (XLedger (<[x := Fin base_price]> (xcurrent_prices l))
                 (<[x := [Fin base_price]]> (xprice_history l)))
  end.

Definition vivify (base_price : R) (x : Z) (l : xledger) : xledger :=
  match xcurrent_prices l !! x with
  | Some _ => l
  | None => XLedger (<[x := Fin base_price]> (xcurrent_prices l))
                    (<[x := [Fin base_price]]> (xprice_history l))
  end.

Definition record (x : Z) (p : xfloat) (l : xledger) : option xledger :=
  h ← xprice_history l !! x;
  Some (XLedger (<[x := p]> (xcurrent_prices l))
                (<[x := h ++ [p]]> (xprice_history l))).

Definition get_price_history (base_price : R) (l : xledger) (x : Z) : list xfloat :=
  match xprice_history l !! x with Some h => h | None => [Fin base_price] end.

Definition ok (l : xledger) : Prop :=
  ∀ x, is_Some (xcurrent_prices l !! x) ↔ is_Some (xprice_history l !! x).

End XLedger.

(** The feature inputs, each number possibly not finite. *)
Record xfeatures : Type := XFeatures {
  x_occupancy_rate : xfloat;
  x_queue_length : xfloat;
  x_traffic_level : xfloat;
  x_is_special_day : bool;
  x_vehicle_weight : xfloat
}.

Module XBaseline.

Record model : Type := Model {
  base_price : R;
  alpha : R;
  prices : xledger
}.

Definition update_price (m : model) (space_id : Z) (occupancy_rate : xfloat)
  : option (xfloat * model) :=
  let l := XLedger.vivify (base_price m) space_id (prices m) in
  current_price ← xcurrent_prices l !! space_id;
  let price_change := Xf.mul (Fin (alpha m)) occupancy_rate in
  let new_price := Xf.add current_price price_change in
  let min_price := Fin (base_price m * 0.5) in
  let max_price := Fin (base_price m * 2.0) in
  let new_price :=
    if Xf.lt new_price min_price then
      Xf.add min_price (Xf.mul (Xf.sub new_price min_price) (Fin 0.1))
    else if Xf.lt max_price new_price then
      Xf.sub max_price (Xf.mul (Xf.sub new_price max_price) (Fin 0.1))
    else new_price in
  let new_price := Xf.max min_price (Xf.min new_price max_price) in
  l' ← XLedger.record space_id new_price l;
  Some (new_price, Model (base_price m) (alpha m) l').

End XBaseline.

Module XDemand.

Record model : Type := Model {
  base_price : R;
  prices : xledger
}.

Definition calculate_demand (f : xfeatures) : xfloat :=
  let normalized_queue := Xf.min (Xf.div (x_queue_length f) (Fin 20.0)) (Fin 1.0) in
  let normalized_traffic := Xf.div (Xf.sub (x_traffic_level f) (Fin 1)) (Fin 9.0) in
  let special_day_factor := Fin (if x_is_special_day f then 1.0 else 0.0) in
  Xf.add
    (Xf.add
       (Xf.sub
          (Xf.add (Xf.mul (Fin Demand.alpha) (x_occupancy_rate f))
                  (Xf.mul (Fin Demand.beta) normalized_queue))
          (Xf.mul (Fin Demand.gamma) normalized_traffic))
       (Xf.mul (Fin Demand.delta) special_day_factor))
    (Xf.mul (Fin Demand.epsilon) (x_vehicle_weight f)).

Definition normalize_demand (demand : xfloat) : xfloat := Xf.tanh demand.

Definition update_price (m : model) (space_id : Z) (f : xfeatures)
  : option (xfloat * model) :=
  let l := XLedger.vivify (base_price m) space_id (prices m) in
  let demand := calculate_demand f in
  let normalized_demand := normalize_demand demand in
  let new_price :=
    Xf.mul (Fin (base_price m))
           (Xf.add (Fin 1) (Xf.mul (Fin Demand.lambda_param) normalized_demand)) in
  let new_price :=
    Xf.max (Fin (base_price m * 0.5)) (Xf.min new_price (Fin (base_price m * 2.0))) in
  l' ← XLedger.record space_id new_price l;
  Some (new_price, Model (base_price m) l').

End XDemand.

Module XCompetitive.

Record competitor : Type := Competitor {
  space_id : Z;
  distance : R;
  price : xfloat
}.

Record model : Type := Model {
  base_price : R;
  prices : xledger;
  locations : list (Z * Competitive.location)
}.

Definition candidate (m : model) (x : Z) (current_location : Competitive.location)
    (item : Z * Competitive.location) : option competitor :=
  let '(other_space_id, other_location) := item in
  if decide (other_space_id = x) then None
  else
    let distance :=
      Competitive.calculate_distance
        (Competitive.latitude current_location) (Competitive.longitude current_location)
        (Competitive.latitude other_location) (Competitive.longitude other_location) in
    if Rle_dec distance Competitive.competition_radius then
      Some (Competitor other_space_id distance
              (Xf.get (xcurrent_prices (prices m)) other_space_id (Fin (base_price m))))
    else None.

Fixpoint insert_by_distance (c : competitor) (l : list competitor) : list competitor :=
  match l with
  | [] => [c]
  | d :: rest =>
      if Rle_dec (distance c) (distance d) then c :: d :: rest
      else d :: insert_by_distance c rest
  end.

Definition sorted_by_distance (l : list competitor) : list competitor :=
  foldr insert_by_distance [] l.

Definition find_competitors (m : model) (x : Z) : list competitor :=
  match Competitive.lookup_location x (locations m) with
  | None => []
  | Some current_location =>
      let competitors := omap (candidate m x current_location) (locations m) in
      sorted_by_distance competitors
  end.

Definition calculate_demand (f : xfeatures) : xfloat :=
  Xf.tanh (XDemand.calculate_demand f).

Definition calculate_competitive_adjustment (m : model) (x : Z)
    (occupancy capacity : Z) : xfloat :=
  let competitors := find_competitors m x in
  match competitors with
  | [] => Fin 0.0
  | _ :: _ =>
      let avg_price := Xf.mean (price <$> competitors) in
      let current_price := Xf.get (xcurrent_prices (prices m)) x (Fin (base_price m)) in
      if decide (occupancy >= capacity)%Z then
        (if Xf.lt avg_price current_price then Fin (-0.1) else Fin 0.05)
      else
        let price_ratio := Xf.div avg_price current_price in
        Xf.mul (Xf.sub price_ratio (Fin 1)) (Fin 0.2)
  end.

Definition update_price (m : model) (x : Z) (f : xfeatures)
    (occupancy capacity : Z) : option (xfloat * model) :=
  let m1 := Model (base_price m) (XLedger.vivify (base_price m) x (prices m))
                  (locations m) in
  let demand := calculate_demand f in
  let demand_price :=
    Xf.mul (Fin (base_price m))
           (Xf.add (Fin 1) (Xf.mul (Fin Competitive.lambda_param) demand)) in
  let adjustment := calculate_competitive_adjustment m1 x occupancy capacity in
  current_price ← xcurrent_prices (prices m1) !! x;
  let competitive_price := Xf.mul current_price (Xf.add (Fin 1) adjustment) in
  let final_price :=
    Xf.add (Xf.mul (Fin Competitive.demand_weight) demand_price)
           (Xf.mul (Fin Competitive.competition_weight) competitive_price) in
  let final_price :=
    Xf.max (Fin (base_price m * 0.5)) (Xf.min final_price (Fin (base_price m * 2.0))) in
  l' ← XLedger.record x final_price (prices m1);
  Some (final_price, Model (base_price m) l' (locations m)).

End XCompetitive.

Record xrow : Type := XRow {
  x_feats : xfeatures;
  x_occupancy : Z;
  x_capacity : Z
}.

Inductive xstrategy : Type :=
  | XBaselineS (m : XBaseline.model)
  | XDemandS (m : XDemand.model)
  | XCompetitiveS (m : XCompetitive.model).

Module XEngine.

Definition base_price (s : xstrategy) : R :=
  match s with
  | XBaselineS m => XBaseline.base_price m
  | XDemandS m => XDemand.base_price m
  | XCompetitiveS m => XCompetitive.base_price m
  end.

Definition prices (s : xstrategy) : xledger :=
  match s with
  | XBaselineS m => XBaseline.prices m
  | XDemandS m => XDemand.prices m
  | XCompetitiveS m => XCompetitive.prices m
  end.

Definition update_price (s : xstrategy) (x : Z) (r : xrow) : option (xfloat * xstrategy) :=
  match s with
  | XBaselineS m =>
      '(p, m') ← XBaseline.update_price m x (x_occupancy_rate (x_feats r));
      Some (p, XBaselineS m')
  | XDemandS m =>
      '(p, m') ← XDemand.update_price m x (x_feats r);
      Some (p, XDemandS m')
  | XCompetitiveS m =>
      '(p, m') ← XCompetitive.update_price m x (x_feats r) (x_occupancy r) (x_capacity r);
      Some (p, XCompetitiveS m')
  end.

Definition get_price_history (s : xstrategy) (x : Z) : list xfloat :=
  XLedger.get_price_history (base_price s) (prices s) x.

(** A NaN among the numbers the strategy is given: the baseline model
    takes the occupancy rate only. *)
Definition nan_reaches (s : xstrategy) (r : xrow) : Prop :=
  match s with
  | XBaselineS _ => x_occupancy_rate (x_feats r) = NaN
  | _ =>
      x_occupancy_rate (x_feats r) = NaN ∨ x_queue_length (x_feats r) = NaN ∨
      x_traffic_level (x_feats r) = NaN ∨ x_vehicle_weight (x_feats r) = NaN
  end.

(** The real-number strategies and records, read as floats. *)
Definition of_ledger (l : ledger) : xledger :=
  XLedger (Fin <$> current_prices l) ((λ h : list R, Fin <$> h) <$> price_history l).

Definition of_features (f : features) : xfeatures :=
  XFeatures (Fin (occupancy_rate f)) (Fin (IZR (queue_length f)))
            (Fin (IZR (traffic_level f))) (is_special_day f) (Fin (vehicle_weight f)).

End XEngine.

Module XSpec.

(** The price before the hard clamp of each strategy. *)
Definition candidate_price (s : xstrategy) (x : Z) (r : xrow) : xfloat :=
  match s with
  | XBaselineS m =>
      let current_price :=
        Xf.get (xcurrent_prices (XBaseline.prices m)) x (Fin (XBaseline.base_price m)) in
      let new_price :=
        Xf.add current_price
          (Xf.mul (Fin (XBaseline.alpha m)) (x_occupancy_rate (x_feats r))) in
      let min_price := Fin (XBaseline.base_price m * 0.5) in
      let max_price := Fin (XBaseline.base_price m * 2.0) in
      if Xf.lt new_price min_price then
        Xf.add min_price (Xf.mul (Xf.sub new_price min_price) (Fin 0.1))
      else if Xf.lt max_price new_price then
        Xf.sub max_price (Xf.mul (Xf.sub new_price max_price) (Fin 0.1))
      else new_price
  | XDemandS m =>
      Xf.mul (Fin (XDemand.base_price m))
        (Xf.add (Fin 1)
           (Xf.mul (Fin Demand.lambda_param)
              (XDemand.normalize_demand (XDemand.calculate_demand (x_feats r)))))
  | XCompetitiveS m =>
      let m1 := XCompetitive.Model (XCompetitive.base_price m)
                  (XLedger.vivify (XCompetitive.base_price m) x (XCompetitive.prices m))
                  (XCompetitive.locations m) in
      let current_price :=
        Xf.get (xcurrent_prices (XCompetitive.prices m)) x
               (Fin (XCompetitive.base_price m)) in
      Xf.add
        (Xf.mul (Fin Competitive.demand_weight)
           (Xf.mul (Fin (XCompetitive.base_price m))
              (Xf.add (Fin 1)
                 (Xf.mul (Fin Competitive.lambda_param)
                    (XCompetitive.calculate_demand (x_feats r))))))
        (Xf.mul (Fin Competitive.competition_weight)
           (Xf.mul current_price
              (Xf.add (Fin 1)
                 (XCompetitive.calculate_competitive_adjustment m1 x
                    (x_occupancy r) (x_capacity r)))))
  end.

(** The price each strategy returns: the hard clamp of its candidate. *)
Definition price_of (s : xstrategy) (x : Z) (r : xrow) : xfloat :=
  Xf.max (Fin (XEngine.base_price s * 0.5))
    (Xf.min (candidate_price s x r) (Fin (XEngine.base_price s * 2.0))).

Definition with_prices (s : xstrategy) (l : xledger) : xstrategy :=
  match s with
  | XBaselineS m => XBaselineS (XBaseline.Model (XBaseline.base_price m) (XBaseline.alpha m) l)
  | XDemandS m => XDemandS (XDemand.Model (XDemand.base_price m) l)
  | XCompetitiveS m =>
      XCompetitiveS (XCompetitive.Model (XCompetitive.base_price m) l
                       (XCompetitive.locations m))
  end.

(** The real-number strategies, records and competitors read as floats. *)
Definition of_strategy (s : strategy) : xstrategy :=
  match s with
  | BaselineS m =>
      XBaselineS (XBaseline.Model (Baseline.base_price m) (Baseline.alpha m)
                    (XEngine.of_ledger (Baseline.prices m)))
  | DemandS m =>
      XDemandS (XDemand.Model (Demand.base_price m) (XEngine.of_ledger (Demand.prices m)))
  | CompetitiveS m =>
      XCompetitiveS (XCompetitive.Model (Competitive.base_price m)
                       (XEngine.of_ledger (Competitive.prices m))
                       (Competitive.locations m))
  end.

Definition of_row (r : row) : xrow :=
  XRow (XEngine.of_features (feats r)) (occupancy r) (capacity r).

Definition of_competitor (c : Competitive.competitor) : XCompetitive.competitor :=
  XCompetitive.Competitor (Competitive.space_id c) (Competitive.distance c)
    (Fin (Competitive.price c)).

End XSpec.

Module XScenario.

(** Two units 0.001 degrees apart, initialised at the base price 10. *)
Definition m2 : XCompetitive.model :=
  XCompetitive.Model 10.0 (XLedger.initialize 10.0 [1%Z; 2%Z] XLedger.empty) Scenario.locs2.

Definition d1 : XDemand.model :=
  XDemand.Model 10.0 (XLedger.initialize 10.0 [1%Z] XLedger.empty).

Definition f0 : xfeatures := XEngine.of_features Scenario.f0.

(** A record whose occupancy rate is NaN. *)
Definition f_nan : xfeatures := XFeatures NaN (Fin 5) (Fin 3) false (Fin 1.0).

End XScenario.

(** * Properties *)

(** ** Builtins *)

Section Clamp.

Variables lo hi : R.
Hypothesis lo_le_hi : lo <= hi.

Lemma clamp_bounds v : lo <= Py.max lo (Py.min v hi) <= hi.
Proof.
  unfold Py.max, Py.min.
  destruct (Rlt_dec hi v); destruct (Rlt_dec lo _); lra.
Qed.

Lemma clamp_id v : lo <= v <= hi → Py.max lo (Py.min v hi) = v.
Proof.
  intros Hv. unfold Py.max, Py.min.
  destruct (Rlt_dec hi v); destruct (Rlt_dec lo _); lra.
Qed.

End Clamp.

Lemma half_le_double b : 0 <= b → b * 0.5 <= b * 2.0.
Proof. intros; lra. Qed.

(** ** Ledger *)

Module LedgerFacts.
Import Ledger.

Lemma ok_empty : ok empty.
Proof. intros x. cbn. rewrite !lookup_empty. split; intros [? ?]; discriminate. Qed.

Lemma ok_insert x c h l :
  ok l →
  ok (Ledger (<[x := c]> (current_prices l)) (<[x := h]> (price_history l))).
Proof.
  intros Hok y. cbn. destruct (decide (x = y)) as [->|Hne].
  - rewrite !lookup_insert_eq. split; eauto.
  - rewrite !lookup_insert_ne by done. apply Hok.
Qed.

Lemma ok_initialize b ids l : ok l → ok (initialize b ids l).
Proof.
  revert l. induction ids as [|x ids IH]; intros l Hok; cbn; [done|].
  apply IH. by apply ok_insert.
Qed.

Lemma ok_vivify b x l : ok l → ok (vivify b x l).
Proof.
  intros Hok. unfold vivify. destruct (current_prices l !! x); [done|].
  by apply ok_insert.
Qed.

Lemma vivify_current b x l :
  current_prices (vivify b x l) !! x = Some (get_current_price b l x).
Proof.
  unfold vivify, get_current_price, Py.get.
  destruct (current_prices l !! x) eqn:E; cbn; [done|]. apply lookup_insert_eq.
Qed.

Lemma vivify_history b x l :
  ok l → price_history (vivify b x l) !! x = Some (get_price_history b l x).
Proof.
  intros Hok. unfold vivify, get_price_history, Py.get.
  destruct (current_prices l !! x) eqn:E; cbn.
  - destruct (proj1 (Hok x)) as [h Hh]; [eauto|]. by rewrite Hh.
  - rewrite lookup_insert_eq.
    destruct (price_history l !! x) eqn:E'; [|done].
    destruct (proj2 (Hok x)) as [c Hc]; [eauto|]. congruence.
Qed.

Lemma vivify_other b x y l :
  y ≠ x →
  current_prices (vivify b x l) !! y = current_prices l !! y ∧
  price_history (vivify b x l) !! y = price_history l !! y.
Proof.
  intros Hne. unfold vivify. destruct (current_prices l !! x); cbn; [done|].
  by rewrite !lookup_insert_ne.
Qed.

(** Vivifying and recording, the ledger part of every [update_price]. *)
Lemma commit b x p l :
  ok l →
  ∃ l', record x p (vivify b x l) = Some l' ∧
        ok l' ∧
        current_prices l' !! x = Some p ∧
        price_history l' !! x = Some (get_price_history b l x ++ [p]) ∧
        ∀ y, y ≠ x → current_prices l' !! y = current_prices l !! y ∧
                     price_history l' !! y = price_history l !! y.
Proof.
  intros Hok. unfold record. rewrite (vivify_history b x l Hok). cbn.
  eexists; split; [reflexivity|]. repeat split.
  - apply ok_insert, ok_vivify, Hok.
  - apply ok_insert, ok_vivify, Hok.
  - cbn. apply lookup_insert_eq.
  - cbn. apply lookup_insert_eq.
  - cbn. rewrite lookup_insert_ne by done. by apply vivify_other.
  - cbn. rewrite lookup_insert_ne by done. by apply vivify_other.
Qed.

End LedgerFacts.

(** ** Every [update_price] is a price followed by a ledger commit *)

Module EngineFacts.
Import Ledger LedgerFacts Spec.

(** A unit's own price is not read by its competitor scan. *)
Lemma candidate_vivify b x l locs cur item :
  Competitive.candidate (Competitive.Model b (vivify b x l) locs) x cur item =
  Competitive.candidate (Competitive.Model b l locs) x cur item.
Proof.
  destruct item as [y loc]. unfold Competitive.candidate. cbn.
  destruct (decide (y = x)) as [|Hne]; [done|].
  destruct (Rle_dec _ _); [|done].
  unfold Py.get. by rewrite (proj1 (vivify_other b x y l Hne)).
Qed.

Lemma find_competitors_vivify b x l locs :
  Competitive.find_competitors (Competitive.Model b (vivify b x l) locs) x =
  Competitive.find_competitors (Competitive.Model b l locs) x.
Proof.
  unfold Competitive.find_competitors. cbn.
  destruct (Competitive.lookup_location x locs) as [cur|]; [|done].
  f_equal. generalize locs at 2 4. intros its.
  induction its as [|it its IH]; cbn; [done|].
  rewrite candidate_vivify, IH. done.
Qed.

Lemma adjustment_vivify b x l locs occ cap :
  Competitive.calculate_competitive_adjustment
    (Competitive.Model b (vivify b x l) locs) x occ cap =
  Competitive.calculate_competitive_adjustment (Competitive.Model b l locs) x occ cap.
Proof.
  unfold Competitive.calculate_competitive_adjustment.
  rewrite find_competitors_vivify. cbn.
  assert (Py.get (current_prices (vivify b x l)) x b = Py.get (current_prices l) x b)
    as ->; [|done].
  unfold Py.get at 1. by rewrite vivify_current.
Qed.

Lemma update_price_commit s x r l' :
  record x (price_of s x r) (vivify (Engine.base_price s) x (Engine.prices s)) = Some l' →
  Engine.update_price s x r = Some (price_of s x r, with_prices s l').
Proof.
  destruct s as [m|m|m]; cbn; intros Hrec.
  - unfold Baseline.update_price. rewrite vivify_current. cbn.
    unfold Baseline.get_current_price in Hrec. rewrite Hrec. done.
  - unfold Demand.update_price. cbn. rewrite Hrec. done.
  - unfold Competitive.update_price. cbn. rewrite vivify_current. cbn.
    rewrite adjustment_vivify.
    unfold blend, Competitive.get_current_price in Hrec.
    destruct m as [b l locs]; cbn in *. rewrite Hrec. done.
Qed.

Lemma base_price_with_prices s l : Engine.base_price (with_prices s l) = Engine.base_price s.
Proof. by destruct s. Qed.

Lemma prices_with_prices s l : Engine.prices (with_prices s l) = l.
Proof. by destruct s. Qed.

(** On a well-formed ledger [update_price] returns, and its effect on the
    ledger is the commit of the returned price. *)
Lemma update_price_total s x r :
  ok (Engine.prices s) →
  ∃ l', Engine.update_price s x r = Some (price_of s x r, with_prices s l') ∧
        ok l' ∧
        current_prices l' !! x = Some (price_of s x r) ∧
        price_history l' !! x =
          Some (Engine.get_price_history s x ++ [price_of s x r]) ∧
        ∀ y, y ≠ x →
             current_prices l' !! y = current_prices (Engine.prices s) !! y ∧
             price_history l' !! y = price_history (Engine.prices s) !! y.
Proof.
  intros Hok.
  destruct (commit (Engine.base_price s) x (price_of s x r) _ Hok)
    as (l' & Hrec & Hok' & Hc & Hh & Hfr).
  exists l'. split; [by apply update_price_commit|]. done.
Qed.

Lemma price_of_bounds s x r :
  0 <= Engine.base_price s →
  Engine.base_price s * 0.5 <= price_of s x r <= Engine.base_price s * 2.0.
Proof.
  intros Hb. destruct s as [m|m|m]; cbn in *;
    apply clamp_bounds; lra.
Qed.

End EngineFacts.

(** ** Streams of updates *)

Module RunFacts.
Import Ledger LedgerFacts Spec EngineFacts.

Lemma unseen_history l x :
  ok l → current_prices l !! x = None → price_history l !! x = None.
Proof.
  intros Hok Hx. destruct (price_history l !! x) eqn:E; [|done].
  destruct (proj2 (Hok x)) as [c Hc]; [eauto|]. congruence.
Qed.

Lemma history_unseen s x :
  ok (Engine.prices s) →
  current_prices (Engine.prices s) !! x = None →
  history_after 0 s x.
Proof.
  intros Hok Hx. pose proof (unseen_history _ _ Hok Hx) as Hh.
  unfold history_after, Engine.get_price_history, Engine.get_current_price,
    get_price_history, get_current_price, Py.get.
  rewrite Hx, Hh. repeat split; [done..|lia].
Qed.

(** Once a unit is stored, the getters read what is stored. *)
Lemma getters_stored s x :
  ok (Engine.prices s) →
  is_Some (current_prices (Engine.prices s) !! x) →
  current_prices (Engine.prices s) !! x = Some (Engine.get_current_price s x) ∧
  price_history (Engine.prices s) !! x = Some (Engine.get_price_history s x).
Proof.
  intros Hok Hc. destruct (proj1 (Hok x) Hc) as [h Hh]. destruct Hc as [c Hc].
  unfold Engine.get_price_history, Engine.get_current_price,
    get_price_history, get_current_price, Py.get.
  by rewrite Hc, Hh.
Qed.

Lemma getters_with_prices s l x :
  Engine.get_price_history (with_prices s l) x = Py.get (price_history l) x [Engine.base_price s] ∧
  Engine.get_current_price (with_prices s l) x = Py.get (current_prices l) x (Engine.base_price s).
Proof.
  unfold Engine.get_price_history, Engine.get_current_price,
    get_price_history, get_current_price.
  by rewrite base_price_with_prices, prices_with_prices.
Qed.

Lemma history_step n s x y r :
  ok (Engine.prices s) →
  history_after n s x →
  ∃ p s', Engine.update_price s y r = Some (p, s') ∧
          ok (Engine.prices s') ∧
          Engine.base_price s' = Engine.base_price s ∧
          history_after (if decide (y = x) then S n else n) s' x.
Proof.
  intros Hok (Hlen & Hhd & Hlast & Hin).
  destruct (update_price_total s y r Hok) as (l' & Hup & Hok' & Hc & Hh & Hfr).
  eexists _, _. split; [exact Hup|].
  rewrite base_price_with_prices, prices_with_prices.
  split; [done|]. split; [done|].
  unfold history_after.
  destruct (getters_with_prices s l' x) as [-> ->].
  rewrite base_price_with_prices, prices_with_prices.
  destruct (decide (y = x)) as [->|Hne].
  - unfold Py.get. rewrite Hc, Hh.
    destruct (Engine.get_price_history s x) as [|h0 hs] eqn:E; [discriminate|].
    cbn in *. rewrite length_app. cbn. split; [lia|]. split; [done|].
    split; [|by eauto].
    rewrite app_comm_cons. apply last_snoc.
  - destruct (Hfr x) as [Hc' Hh']; [done|].
    unfold Py.get. rewrite Hc', Hh'. done.
Qed.

Lemma updates_of_cons x y r stream :
  Engine.updates_of x ((y, r) :: stream) =
  ((if decide (y = x) then 1 else 0) + Engine.updates_of x stream)%nat.
Proof.
  unfold Engine.updates_of. rewrite filter_cons. cbn.
  by destruct (decide (y = x)).
Qed.

Lemma history_run stream : ∀ n s x,
  ok (Engine.prices s) →
  history_after n s x →
  ∃ s', Engine.run s stream = Some s' ∧
        ok (Engine.prices s') ∧
        Engine.base_price s' = Engine.base_price s ∧
        history_after (n + Engine.updates_of x stream) s' x.
Proof.
  induction stream as [|[y r] stream IH]; intros n s x Hok Hinv.
  - exists s. cbn. rewrite Nat.add_0_r. done.
  - destruct (history_step n s x y r Hok Hinv) as (p & s1 & Hup & Hok1 & Hb1 & Hinv1).
    destruct (IH _ s1 x Hok1 Hinv1) as (s' & Hrun & Hok' & Hb' & Hinv').
    exists s'. rewrite updates_of_cons. cbn [Engine.run]. rewrite Hup. cbn.
    split; [done|]. split; [done|]. split; [congruence|].
    destruct (decide (y = x)); cbn in *.
    + by rewrite Nat.add_succ_r.
    + done.
Qed.

End RunFacts.

(** ** The hyperbolic tangent *)

Section Tanh.

Variable x : R.

Lemma tanh_exp : tanh x * (exp x + exp (- x)) = exp x - exp (- x).
Proof.
  unfold tanh, sinh, cosh. field.
  pose proof (exp_pos x). pose proof (exp_pos (- x)). lra.
Qed.

Lemma exp_opp_mult : exp x * exp (- x) = 1.
Proof. rewrite <- exp_plus, Rplus_opp_r. apply exp_0. Qed.

Lemma tanh_bounds : -1 < tanh x < 1.
Proof.
  pose proof tanh_exp as E.
  pose proof (exp_pos x). pose proof (exp_pos (- x)).
  split; nra.
Qed.

(** Above [-0.2] the tangent stays above [-0.625]: enough for the
    blended price of the competitive model to stay above the floor. *)
Lemma tanh_lower : -0.2 < x → -0.625 <= tanh x.
Proof.
  intros Hx.
  pose proof tanh_exp as E. pose proof exp_opp_mult as M.
  pose proof (exp_pos x) as Ha. pose proof (exp_pos (- x)) as Hb.
  pose proof (exp_ineq1_le x) as Hlin.
  assert (exp (- x) < 1.25) by nra.
  nra.
Qed.

End Tanh.

(** ** Competitor discovery *)

Module CompetitorFacts.
Import Competitive.

Lemma lookup_location_elem x d loc :
  lookup_location x d = Some loc → (x, loc) ∈ d.
Proof.
  induction d as [|[y l] d IH]; cbn; [done|].
  destruct (decide (y = x)) as [->|]; intros H.
  - injection H as ->. apply list_elem_of_here.
  - apply list_elem_of_further, IH, H.
Qed.

Lemma lookup_location_None x d :
  lookup_location x d = None ↔ ∀ loc, (x, loc) ∉ d.
Proof.
  induction d as [|[y l] d IH]; cbn.
  - split; [|done]. intros _ loc H. by apply elem_of_nil in H.
  - destruct (decide (y = x)) as [->|Hne].
    + split; [done|]. intros H. destruct (H l). apply list_elem_of_here.
    + rewrite IH. split; intros H loc.
      * intros [E|E]%elem_of_cons; [congruence|]. by apply (H loc).
      * intros E. apply (H loc). by apply list_elem_of_further.
Qed.

Lemma insert_by_distance_perm c l : insert_by_distance c l ≡ₚ c :: l.
Proof.
  induction l as [|d l IH]; cbn; [done|].
  destruct (Rle_dec _ _); [done|].
  rewrite IH. apply Permutation_swap.
Qed.

Lemma sorted_by_distance_perm l : sorted_by_distance l ≡ₚ l.
Proof.
  induction l as [|c l IH]; cbn; [done|].
  by rewrite insert_by_distance_perm, IH.
Qed.

Lemma insert_by_distance_sorted c l :
  StronglySorted nearer l → StronglySorted nearer (insert_by_distance c l).
Proof.
  induction 1 as [|d l Hs IH Hd]; cbn.
  - repeat constructor.
  - destruct (Rle_dec (distance c) (distance d)) as [Hle|Hgt].
    + constructor; [by constructor|].
      constructor; [exact Hle|].
      eapply Forall_impl; [exact Hd|]. unfold nearer. intros; lra.
    + constructor; [exact IH|].
      rewrite insert_by_distance_perm. constructor; [|exact Hd].
      unfold nearer. lra.
Qed.

Lemma sorted_by_distance_sorted l : StronglySorted nearer (sorted_by_distance l).
Proof.
  induction l as [|c l IH]; cbn; [constructor|].
  by apply insert_by_distance_sorted.
Qed.

(** Competitors at the same distance keep the order of the scan. *)
Lemma insert_by_distance_stable (d : R) c l :
  StronglySorted nearer l →
  filter (λ e, distance e = d) (insert_by_distance c l) =
  filter (λ e, distance e = d) (c :: l).
Proof.
  induction 1 as [|e l Hs IH He]; cbn; [done|].
  destruct (Rle_dec (distance c) (distance e)) as [Hle|Hgt]; [done|].
  rewrite !filter_cons in *. rewrite IH.
  destruct (decide (distance c = d)), (decide (distance e = d)); try done.
  lra.
Qed.

Lemma sorted_by_distance_stable (d : R) l :
  filter (λ e, distance e = d) (sorted_by_distance l) =
  filter (λ e, distance e = d) l.
Proof.
  induction l as [|c l IH]; [done|].
  change (sorted_by_distance (c :: l))
    with (insert_by_distance c (sorted_by_distance l)).
  rewrite insert_by_distance_stable by apply sorted_by_distance_sorted.
  rewrite !filter_cons. by rewrite IH.
Qed.

Lemma candidate_Some m x cur y loc c :
  candidate m x cur (y, loc) = Some c ↔
  y ≠ x ∧ apart cur loc <= competition_radius ∧
  c = Competitor y (apart cur loc) (get_current_price m y).
Proof.
  unfold candidate, apart, get_current_price, Ledger.get_current_price.
  destruct (decide (y = x)) as [->|Hne].
  - split; [done|]. by intros [? _].
  - destruct (Rle_dec _ _) as [Hle|Hgt].
    + split.
      * intros [= <-]. done.
      * intros (_ & _ & ->). done.
    + split; [done|]. intros (_ & Hle & _). done.
Qed.

Lemma elem_of_find_competitors m x cur c :
  lookup_location x (locations m) = Some cur →
  c ∈ find_competitors m x ↔
  ∃ y loc, (y, loc) ∈ locations m ∧ y ≠ x ∧
           apart cur loc <= competition_radius ∧
           c = Competitor y (apart cur loc) (get_current_price m y).
Proof.
  intros Hcur. unfold find_competitors. rewrite Hcur.
  rewrite sorted_by_distance_perm, list_elem_of_omap. split.
  - intros ([y loc] & Hin & Hc). exists y, loc. split; [done|].
    by apply candidate_Some in Hc.
  - intros (y & loc & Hin & Hc). exists (y, loc). split; [done|].
    by apply candidate_Some.
Qed.

Lemma find_competitors_sorted m x : StronglySorted nearer (find_competitors m x).
Proof.
  unfold find_competitors.
  destruct (lookup_location x (locations m)); [|constructor].
  apply sorted_by_distance_sorted.
Qed.


End CompetitorFacts.

(** * The pricing strategies *)

Import Ledger LedgerFacts Spec EngineFacts RunFacts.

(** The spec's baseline scenario: base price 10, alpha 0.5, an unseen unit
    and an occupancy rate of 0.8 give 10.4. *)
Example baseline_scenario :
  ∃ m', Baseline.update_price Baseline.default 1 0.8 = Some (10.4, m').
Proof.
  assert (Baseline.next_price Baseline.default 10.0 0.8 = 10.4) as E.
  { unfold Baseline.next_price, Baseline.candidate, Baseline.dampen, Py.max, Py.min. cbn.
    repeat (destruct (Rlt_dec _ _) || destruct (Rgt_dec _ _)); lra. }
  destruct (update_price_total (BaselineS Baseline.default) 1
              (Row (Features 0.8 0 1 false 1.0) 0 1) ok_empty) as (l' & Hup & _).
  cbn in Hup. unfold Baseline.get_current_price, get_current_price, Py.get in Hup.
  cbn in Hup. rewrite lookup_empty, E in Hup.
  destruct (Baseline.update_price Baseline.default 1 0.8) as [[p m']|]; [|done].
  cbn in Hup. injection Hup as -> _. eauto.
Qed.

(** C1. For each of the three strategies, [update_price] on a ledger the
    classes can build returns a price, that price lies between half and
    twice the base price, and it is the unit's current price afterwards.
    The base price is a price: it is not negative. *)
Theorem update_price_within_bounds (s : strategy) (x : Z) (r : row) :
  0 <= Engine.base_price s →
  Ledger.ok (Engine.prices s) →
  ∃ p s', Engine.update_price s x r = Some (p, s') ∧
          Engine.base_price s * 0.5 <= p <= Engine.base_price s * 2.0 ∧
          current_prices (Engine.prices s') !! x = Some p ∧
          Engine.get_current_price s' x = p.
Proof.
  intros Hb Hok.
  destruct (update_price_total s x r Hok) as (l' & Hup & _ & Hc & _).
  eexists _, _. split; [exact Hup|].
  split; [by apply price_of_bounds|].
  destruct (getters_with_prices s l' x) as [_ ->].
  rewrite prices_with_prices. unfold Py.get. by rewrite Hc.
Qed.

Lemma update_price_within_bounds_witness :
  0 <= Engine.base_price (CompetitiveS Scenario.m2) ∧
  ∃ p s', Engine.update_price (CompetitiveS Scenario.m2) 1 Scenario.row0 = Some (p, s') ∧
          10.0 * 0.5 <= p <= 10.0 * 2.0 ∧
          current_prices (Engine.prices s') !! 1%Z = Some p ∧
          Engine.get_current_price s' 1 = p.
Proof.
  split; [cbn; lra|].
  apply (update_price_within_bounds (CompetitiveS Scenario.m2) 1 Scenario.row0).
  - cbn; lra.
  - apply ok_initialize, ok_empty.
Defined.

Lemma baseline_update_total (m : Baseline.model) (x : Z) (occupancy_rate : R) :
  Ledger.ok (Baseline.prices m) →
  ∃ l', Baseline.update_price m x occupancy_rate =
          Some (Baseline.next_price m (Baseline.get_current_price m x) occupancy_rate,
                Baseline.Model (Baseline.base_price m) (Baseline.alpha m) l') ∧
        Ledger.ok l'.
Proof.
  intros Hok.
  destruct (update_price_total (BaselineS m) x
              (Row (Features occupancy_rate 0 0 false 0) 0 0) Hok)
    as (l' & Hup & Hok' & _).
  exists l'. split; [|done]. cbn in Hup.
  destruct (Baseline.update_price m x occupancy_rate) as [[p m']|]; [|done].
  cbn in Hup. by injection Hup as -> ->.
Qed.

(** C2, as the code has it.  Below the floor the soft bound keeps a tenth
    of the undershoot: [min_price + (new_price - min_price) * 0.1].  Above
    the ceiling it reflects a tenth of the overshoot back inside:
    [max_price - (new_price - max_price) * 0.1].  [update_price] returns the
    hard clamp of the dampened value. *)
Theorem dampen_soft_bounds (m : Baseline.model) (x : Z) (occupancy_rate : R) :
  0 <= Baseline.base_price m →
  Ledger.ok (Baseline.prices m) →
  let new_price :=
    Baseline.get_current_price m x + Baseline.alpha m * occupancy_rate in
  let min_price := Baseline.base_price m * 0.5 in
  let max_price := Baseline.base_price m * 2.0 in
  (new_price < min_price →
   Baseline.dampen min_price max_price new_price =
     min_price + (new_price - min_price) * 0.1) ∧
  (new_price > max_price →
   Baseline.dampen min_price max_price new_price =
     max_price - (new_price - max_price) * 0.1) ∧
  ∃ m', Baseline.update_price m x occupancy_rate =
          Some (Py.max min_price
                  (Py.min (Baseline.dampen min_price max_price new_price) max_price),
                m').
Proof.
  intros Hb Hok new_price min_price max_price.
  assert (min_price <= max_price) by (subst min_price max_price; lra).
  split; [|split].
  - intros Hlt. unfold Baseline.dampen.
    destruct (Rlt_dec new_price min_price); [done|lra].
  - intros Hgt. unfold Baseline.dampen.
    destruct (Rlt_dec new_price min_price); [lra|].
    destruct (Rgt_dec new_price max_price); [done|lra].
  - destruct (baseline_update_total m x occupancy_rate Hok) as (l' & Hup & _).
    eexists. exact Hup.
Qed.

Lemma dampen_soft_bounds_witness :
  Baseline.dampen (10.0 * 0.5) (10.0 * 2.0) (10.0 + 0.5 * 100) =
    10.0 * 2.0 - (10.0 + 0.5 * 100 - 10.0 * 2.0) * 0.1.
Proof.
  refine (proj1 (proj2 (dampen_soft_bounds Baseline.default 1 100 _ _)) _).
  - cbn; lra.
  - apply ok_empty.
  - unfold Baseline.get_current_price, get_current_price, Py.get. cbn.
    rewrite lookup_empty. lra.
Defined.

(** C2 with the mirrored formula [max_price + (new_price - max_price) * 0.1]
    does not hold: with base price 10 and alpha 0.5 a stored price of 20
    and a full unit give the candidate 20.5, above the ceiling 20; the
    dampened value is 19.95, not 20.05, and 19.95 is what [update_price]
    returns. *)
Lemma dampen_above_ceiling_not_mirrored :
  Baseline.get_current_price Scenario.at_ceiling 1 = 20 ∧
  20 + 0.5 * 1 > 10.0 * 2.0 ∧
  Baseline.dampen (10.0 * 0.5) (10.0 * 2.0) (20 + 0.5 * 1) = 19.95 ∧
  Baseline.dampen (10.0 * 0.5) (10.0 * 2.0) (20 + 0.5 * 1) ≠
    10.0 * 2.0 + (20 + 0.5 * 1 - 10.0 * 2.0) * 0.1 ∧
  ∃ m', Baseline.update_price Scenario.at_ceiling 1 1 = Some (19.95, m').
Proof.
  assert (Baseline.get_current_price Scenario.at_ceiling 1 = 20) as Hcur.
  { unfold Baseline.get_current_price, get_current_price, Py.get. cbn.
    by rewrite lookup_singleton_eq. }
  assert (Baseline.dampen (10.0 * 0.5) (10.0 * 2.0) (20 + 0.5 * 1) = 19.95) as Hd.
  { unfold Baseline.dampen.
    destruct (Rlt_dec _ _); [lra|]. destruct (Rgt_dec _ _); lra. }
  split; [exact Hcur|]. split; [lra|]. split; [exact Hd|]. split; [rewrite Hd; lra|].
  assert (Ledger.ok (Baseline.prices Scenario.at_ceiling)) as Hok.
  { intros y. cbn. destruct (decide (y = 1%Z)) as [->|Hne].
    - rewrite !lookup_singleton_eq. split; eauto.
    - rewrite !lookup_singleton_ne by done. split; intros [? ?]; discriminate. }
  destruct (baseline_update_total Scenario.at_ceiling 1 1 Hok) as (l' & Hup & _).
  eexists. rewrite Hup. f_equal. f_equal.
  unfold Baseline.next_price, Baseline.candidate. rewrite Hcur. cbn.
  rewrite Hd. unfold Py.max, Py.min.
  destruct (Rlt_dec _ _); destruct (Rlt_dec _ _); lra.
Qed.

(** [update_price] of the demand and of the competitive model, read off
    the dispatch. *)
Lemma demand_update_total (m : Demand.model) (x : Z) (f : features) :
  Ledger.ok (Demand.prices m) →
  ∃ l', Demand.update_price m x f =
          Some (Demand.next_price (Demand.base_price m) f,
                Demand.Model (Demand.base_price m) l') ∧
        Ledger.ok l'.
Proof.
  intros Hok.
  destruct (update_price_total (DemandS m) x (Row f 0 0) Hok) as (l' & Hup & Hok' & _).
  exists l'. split; [|done]. cbn in Hup.
  destruct (Demand.update_price m x f) as [[p m']|]; [|done].
  cbn in Hup. by injection Hup as -> ->.
Qed.

Lemma competitive_update_total (m : Competitive.model) (x : Z) (f : features)
    (occ cap : Z) :
  Ledger.ok (Competitive.prices m) →
  ∃ l', Competitive.update_price m x f occ cap =
          Some (Py.max (Competitive.base_price m * 0.5)
                  (Py.min (blend m x f occ cap) (Competitive.base_price m * 2.0)),
                Competitive.Model (Competitive.base_price m) l' (Competitive.locations m)) ∧
        Ledger.ok l'.
Proof.
  intros Hok.
  destruct (update_price_total (CompetitiveS m) x (Row f occ cap) Hok)
    as (l' & Hup & Hok' & _).
  exists l'. split; [|done]. cbn in Hup.
  destruct (Competitive.update_price m x f occ cap) as [[p m']|]; [|done].
  cbn in Hup. by injection Hup as -> ->.
Qed.

(** The float model: ledger, clamp and NaN. *)
Module XFacts.

Lemma float_ok_empty : XLedger.ok XLedger.empty.
Proof. intros x. cbn. rewrite !lookup_empty. split; intros [? ?]; discriminate. Qed.

Lemma float_ok_insert x c h l :
  XLedger.ok l →
  XLedger.ok (XLedger (<[x := c]> (xcurrent_prices l)) (<[x := h]> (xprice_history l))).
Proof.
  intros Hok y. cbn. destruct (decide (x = y)) as [->|Hne].
  - rewrite !lookup_insert_eq. split; eauto.
  - rewrite !lookup_insert_ne by done. apply Hok.
Qed.

Lemma float_ok_initialize b ids l : XLedger.ok l → XLedger.ok (XLedger.initialize b ids l).
Proof.
  revert l. induction ids as [|x ids IH]; intros l Hok; cbn; [done|].
  apply IH. by apply float_ok_insert.
Qed.

Lemma float_ok_vivify b x l : XLedger.ok l → XLedger.ok (XLedger.vivify b x l).
Proof.
  intros Hok. unfold XLedger.vivify. destruct (xcurrent_prices l !! x); [done|].
  by apply float_ok_insert.
Qed.

Lemma float_vivify_current b x l :
  xcurrent_prices (XLedger.vivify b x l) !! x =
    Some (Xf.get (xcurrent_prices l) x (Fin b)).
Proof.
  unfold XLedger.vivify, Xf.get.
  destruct (xcurrent_prices l !! x) eqn:E; cbn; [done|]. apply lookup_insert_eq.
Qed.

Lemma float_vivify_history b x l :
  XLedger.ok l →
  xprice_history (XLedger.vivify b x l) !! x = Some (XLedger.get_price_history b l x).
Proof.
  intros Hok. unfold XLedger.vivify, XLedger.get_price_history.
  destruct (xcurrent_prices l !! x) eqn:E; cbn.
  - destruct (proj1 (Hok x)) as [h Hh]; [eauto|]. by rewrite Hh.
  - rewrite lookup_insert_eq.
    destruct (xprice_history l !! x) eqn:E'; [|done].
    destruct (proj2 (Hok x)) as [c Hc]; [eauto|]. congruence.
Qed.

Lemma float_commit b x p l :
  XLedger.ok l →
  ∃ l', XLedger.record x p (XLedger.vivify b x l) = Some l' ∧
        XLedger.ok l' ∧
        xcurrent_prices l' !! x = Some p ∧
        xprice_history l' !! x = Some (XLedger.get_price_history b l x ++ [p]).
Proof.
  intros Hok. unfold XLedger.record. rewrite (float_vivify_history b x l Hok). cbn.
  eexists; split; [reflexivity|]. split; [apply float_ok_insert, float_ok_vivify, Hok|].
  cbn. by rewrite !lookup_insert_eq.
Qed.

(** The hard clamp turns every float, NaN and the infinities included,
    into a real number within the bounds. *)
Lemma float_clamp_finite (lo hi : R) (v : xfloat) :
  lo <= hi →
  ∃ p, Xf.max (Fin lo) (Xf.min v (Fin hi)) = Fin p ∧ lo <= p <= hi.
Proof.
  intros Hle. unfold Xf.max, Xf.min. destruct v as [r| | |]; cbn.
  - destruct (Rlt_dec hi r); cbn.
    + destruct (Rlt_dec lo hi); [exists hi|exists lo]; split; (done || lra).
    + destruct (Rlt_dec lo r); [exists r|exists lo]; split; (done || lra).
  - destruct (Rlt_dec lo hi); [exists hi|exists lo]; split; (done || lra).
  - exists lo. split; [done|lra].
  - exists lo. split; [done|lra].
Qed.

Lemma float_clamp_nan (lo hi : R) : Xf.max (Fin lo) (Xf.min NaN (Fin hi)) = Fin lo.
Proof. reflexivity. Qed.

Lemma add_nan_l b : Xf.add NaN b = NaN.
Proof. by destruct b. Qed.
Lemma add_nan_r a : Xf.add a NaN = NaN.
Proof. by destruct a. Qed.
Lemma sub_nan_l b : Xf.sub NaN b = NaN.
Proof. by destruct b. Qed.
Lemma sub_nan_r a : Xf.sub a NaN = NaN.
Proof. by destruct a. Qed.
Lemma mul_nan_l b : Xf.mul NaN b = NaN.
Proof. by destruct b. Qed.
Lemma mul_nan_r a : Xf.mul a NaN = NaN.
Proof. by destruct a. Qed.
Lemma div_nan_l b : Xf.div NaN b = NaN.
Proof. by destruct b. Qed.
Lemma min_nan_l b : Xf.min NaN b = NaN.
Proof. by destruct b. Qed.
Lemma lt_nan_l b : Xf.lt NaN b = false.
Proof. by destruct b. Qed.
Lemma lt_nan_r a : Xf.lt a NaN = false.
Proof. by destruct a. Qed.

Lemma float_calculate_demand_nan (f : xfeatures) :
  x_occupancy_rate f = NaN ∨ x_queue_length f = NaN ∨
  x_traffic_level f = NaN ∨ x_vehicle_weight f = NaN →
  XDemand.calculate_demand f = NaN.
Proof.
  unfold XDemand.calculate_demand.
  intros [H|[H|[H|H]]]; rewrite H;
    rewrite ?div_nan_l, ?min_nan_l, ?sub_nan_l, ?div_nan_l, ?mul_nan_r,
      ?add_nan_r, ?add_nan_l, ?sub_nan_r, ?sub_nan_l, ?add_nan_l, ?add_nan_r; done.
Qed.

Lemma float_update_price_commit (s : xstrategy) (x : Z) (r : xrow) :
  XEngine.update_price s x r =
    l' ← XLedger.record x (XSpec.price_of s x r)
           (XLedger.vivify (XEngine.base_price s) x (XEngine.prices s));
    Some (XSpec.price_of s x r, XSpec.with_prices s l').
Proof.
  destruct s as [m|m|m]; cbn [XEngine.update_price].
  - unfold XBaseline.update_price. rewrite float_vivify_current. cbn [mbind option_bind].
    unfold XSpec.price_of, XSpec.candidate_price, XSpec.with_prices. cbn.
    by destruct (XLedger.record _ _ _).
  - unfold XDemand.update_price.
    unfold XSpec.price_of, XSpec.candidate_price, XSpec.with_prices. cbn.
    by destruct (XLedger.record _ _ _).
  - unfold XCompetitive.update_price. cbn [XCompetitive.prices]. rewrite float_vivify_current.
    cbn [mbind option_bind].
    unfold XSpec.price_of, XSpec.candidate_price, XSpec.with_prices. cbn.
    by destruct (XLedger.record _ _ _).
Qed.

Lemma float_update_price_total (s : xstrategy) (x : Z) (r : xrow) :
  XLedger.ok (XEngine.prices s) →
  ∃ s', XEngine.update_price s x r = Some (XSpec.price_of s x r, s') ∧
        XLedger.ok (XEngine.prices s') ∧
        XEngine.base_price s' = XEngine.base_price s ∧
        xcurrent_prices (XEngine.prices s') !! x = Some (XSpec.price_of s x r) ∧
        xprice_history (XEngine.prices s') !! x =
          Some (XEngine.get_price_history s x ++ [XSpec.price_of s x r]).
Proof.
  intros Hok.
  destruct (float_commit (XEngine.base_price s) x (XSpec.price_of s x r) _ Hok)
    as (l' & Hrec & Hok' & Hc & Hh).
  exists (XSpec.with_prices s l'). rewrite float_update_price_commit, Hrec.
  split; [done|]. by destruct s.
Qed.

Lemma float_candidate_price_nan (s : xstrategy) (x : Z) (r : xrow) :
  XEngine.nan_reaches s r → XSpec.candidate_price s x r = NaN.
Proof.
  destruct s as [m|m|m]; unfold XEngine.nan_reaches, XSpec.candidate_price;
    cbv zeta; intros H.
  - rewrite H, mul_nan_r, add_nan_r, lt_nan_l, lt_nan_r. done.
  - unfold XDemand.normalize_demand. rewrite (float_calculate_demand_nan _ H).
    change (Xf.tanh NaN) with NaN. reflexivity.
  - unfold XCompetitive.calculate_demand. rewrite (float_calculate_demand_nan _ H).
    change (Xf.tanh NaN) with NaN.
    change (Xf.mul (Fin Competitive.lambda_param) NaN) with NaN.
    change (Xf.add (Fin 1) NaN) with NaN.
    rewrite !mul_nan_r. apply add_nan_l.
Qed.

(** The capacity takes part in the test [occupancy >= capacity] only. *)
Lemma float_update_price_capacity (s : xstrategy) (x : Z) (f : xfeatures) (occ cap cap' : Z) :
  ((occ >= cap)%Z ↔ (occ >= cap')%Z) →
  XEngine.update_price s x (XRow f occ cap') = XEngine.update_price s x (XRow f occ cap).
Proof.
  intros Hiff. destruct s as [m|m|m]; cbn; [done|done|].
  unfold XCompetitive.update_price, XCompetitive.calculate_competitive_adjustment.
  destruct (decide (occ >= cap)%Z) as [Hc|Hc], (decide (occ >= cap')%Z) as [Hc'|Hc'];
    (done || tauto).
Qed.

End XFacts.

(** C4, as the code has it.  No strategy validates what it is given, so a
    record that violates the preconditions is priced like any other and no
    error is reported.  For every input, a capacity of zero or less and a
    NaN or an infinity among the numbers included, [update_price] returns a
    finite price within [[base_price*0.5, base_price*2.0]], stores it as the
    unit's current price and appends it to the unit's history.  A NaN that
    reaches the strategy is stored as [base_price * 0.5].  The capacity only
    takes part in the test [occupancy >= capacity]: with a capacity of zero
    or less and a non-negative occupancy the unit is priced as a full
    one. *)
Theorem invalid_input_is_priced (s : xstrategy) (x : Z) (r : xrow) :
  0 <= XEngine.base_price s →
  XLedger.ok (XEngine.prices s) →
  ∃ p s',
    XEngine.update_price s x r = Some (Fin p, s') ∧
    XEngine.base_price s * 0.5 <= p <= XEngine.base_price s * 2.0 ∧
    xcurrent_prices (XEngine.prices s') !! x = Some (Fin p) ∧
    xprice_history (XEngine.prices s') !! x =
      Some (XEngine.get_price_history s x ++ [Fin p]) ∧
    (XEngine.nan_reaches s r → p = XEngine.base_price s * 0.5) ∧
    (∀ cap', ((x_occupancy r >= x_capacity r)%Z ↔ (x_occupancy r >= cap')%Z) →
       XEngine.update_price s x (XRow (x_feats r) (x_occupancy r) cap') =
         Some (Fin p, s')) ∧
    ((x_capacity r <= 0)%Z → (0 <= x_occupancy r)%Z →
     XEngine.update_price s x (XRow (x_feats r) (x_occupancy r) (x_occupancy r)) =
       Some (Fin p, s')).
Proof.
  intros Hb Hok.
  destruct (XFacts.float_update_price_total s x r Hok) as (s' & Hup & _ & _ & Hc & Hh).
  destruct (XFacts.float_clamp_finite (XEngine.base_price s * 0.5) (XEngine.base_price s * 2.0)
              (XSpec.candidate_price s x r)) as (p & Hp & Hrange); [lra|].
  unfold XSpec.price_of in Hup, Hc, Hh. rewrite Hp in Hup, Hc, Hh.
  assert (∀ cap', ((x_occupancy r >= x_capacity r)%Z ↔ (x_occupancy r >= cap')%Z) →
            XEngine.update_price s x (XRow (x_feats r) (x_occupancy r) cap') =
              Some (Fin p, s')) as Hcap.
  { intros cap' Hiff. rewrite <- Hup. destruct r as [f occ cap]. cbn in *.
    by apply XFacts.float_update_price_capacity. }
  exists p, s'. split; [exact Hup|]. split; [exact Hrange|]. split; [exact Hc|].
  split; [exact Hh|]. split; [|split; [exact Hcap|]].
  - intros Hnan. rewrite (XFacts.float_candidate_price_nan s x r Hnan) in Hp.
    rewrite XFacts.float_clamp_nan in Hp. by injection Hp as <-.
  - intros Hcap0 Hocc. apply Hcap. lia.
Qed.

Lemma invalid_input_is_priced_witness :
  ∃ p s',
    XEngine.update_price (XCompetitiveS XScenario.m2) 1 (XRow XScenario.f_nan 3 0)
      = Some (Fin p, s') ∧
    10.0 * 0.5 <= p <= 10.0 * 2.0 ∧
    p = 10.0 * 0.5 ∧
    XEngine.update_price (XCompetitiveS XScenario.m2) 1 (XRow XScenario.f_nan 3 3)
      = Some (Fin p, s').
Proof.
  destruct (invalid_input_is_priced (XCompetitiveS XScenario.m2) 1
              (XRow XScenario.f_nan 3 0))
    as (p & s' & Hup & Hrange & _ & _ & Hnan & _ & Hfull).
  - cbn; lra.
  - apply XFacts.float_ok_initialize, XFacts.float_ok_empty.
  - exists p, s'. split; [exact Hup|]. split; [exact Hrange|]. split.
    + apply Hnan. cbn. by left.
    + apply Hfull; cbn; lia.
Defined.

(** On real numbers the float model of the demand price is the model
    above. *)
Lemma float_demand_price_agrees (m : XDemand.model) (x : Z) (f : features) (occ cap : Z) :
  XSpec.price_of (XDemandS m) x (XRow (XEngine.of_features f) occ cap) =
    Fin (Demand.next_price (XDemand.base_price m) f).
Proof.
  unfold XSpec.price_of, XSpec.candidate_price, XDemand.normalize_demand,
    XDemand.calculate_demand, XEngine.of_features, Demand.next_price,
    Demand.normalize_demand, Demand.calculate_demand. cbn.
  destruct (Req_dec_T 20.0 0) as [E|_]; [lra|].
  destruct (Req_dec_T 9.0 0) as [E|_]; [lra|].
  unfold Xf.min at 2, Py.min at 1. cbn.
  destruct (Rlt_dec 1.0 (IZR (queue_length f) / 20.0)); cbn;
    unfold Xf.max, Xf.min, Py.max, Py.min; cbn;
    repeat (destruct (Rlt_dec _ _); cbn); try done; lra.
Qed.

(** On real numbers the whole float model is the model above. *)
Lemma float_get (cp : gmap Z R) (x : Z) (b : R) :
  Xf.get (Fin <$> cp) x (Fin b) = Fin (Py.get cp x b).
Proof. unfold Xf.get, Py.get. rewrite lookup_fmap. by destruct (cp !! x). Qed.

Lemma float_of_vivify (b : R) (x : Z) (l : ledger) :
  XLedger.vivify b x (XEngine.of_ledger l) = XEngine.of_ledger (Ledger.vivify b x l).
Proof.
  unfold XLedger.vivify, Ledger.vivify, XEngine.of_ledger. cbn.
  rewrite lookup_fmap. destruct (current_prices l !! x); cbn; [done|].
  by rewrite !fmap_insert.
Qed.

Lemma float_of_record (x : Z) (p : R) (l : ledger) :
  XLedger.record x (Fin p) (XEngine.of_ledger l) =
    XEngine.of_ledger <$> Ledger.record x p l.
Proof.
  unfold XLedger.record, Ledger.record, XEngine.of_ledger. cbn.
  rewrite lookup_fmap. destruct (price_history l !! x) as [h|]; cbn; [|done].
  by rewrite !fmap_insert, fmap_app.
Qed.

Lemma float_clamp (lo hi v : R) :
  Xf.max (Fin lo) (Xf.min (Fin v) (Fin hi)) = Fin (Py.max lo (Py.min v hi)).
Proof.
  unfold Xf.max, Xf.min, Py.max, Py.min. cbn.
  destruct (Rlt_dec hi v); cbn; destruct (Rlt_dec lo _); done.
Qed.

Lemma float_sum (l : list R) (acc : R) :
  foldl Xf.add (Fin acc) (Fin <$> l) = Fin (acc + Py.sum l).
Proof.
  revert acc. induction l as [|p l IH]; intros acc; cbn.
  - f_equal. lra.
  - rewrite IH. f_equal. unfold Py.sum. cbn. lra.
Qed.

Lemma float_mean (l : list R) :
  l ≠ [] → Xf.mean (Fin <$> l) = Fin (Py.mean l).
Proof.
  intros Hne. unfold Xf.mean, Xf.sum, Py.mean. rewrite float_sum, length_fmap. cbn.
  destruct (Req_dec_T (INR (length l)) 0) as [E|_].
  - apply not_0_INR in E; [done|]. by destruct l.
  - f_equal. lra.
Qed.

Lemma float_insert_by_distance (c : Competitive.competitor)
    (l : list Competitive.competitor) :
  XCompetitive.insert_by_distance (XSpec.of_competitor c) (XSpec.of_competitor <$> l) =
    XSpec.of_competitor <$> Competitive.insert_by_distance c l.
Proof.
  induction l as [|d l IH]; [done|]. cbn.
  destruct (Rle_dec _ _); cbn; [done|]. by rewrite <- IH.
Qed.

Lemma float_sorted_candidates (m : Competitive.model) (x : Z)
    (cur : Competitive.location) (its : list (Z * Competitive.location)) :
  XCompetitive.sorted_by_distance
    (omap (XCompetitive.candidate
             (XCompetitive.Model (Competitive.base_price m)
                (XEngine.of_ledger (Competitive.prices m)) (Competitive.locations m))
             x cur) its) =
    XSpec.of_competitor <$>
      Competitive.sorted_by_distance (omap (Competitive.candidate m x cur) its).
Proof.
  induction its as [|[y loc] its IH]; [done|].
  cbn [omap list_omap].
  assert (XCompetitive.candidate
            (XCompetitive.Model (Competitive.base_price m)
               (XEngine.of_ledger (Competitive.prices m)) (Competitive.locations m))
            x cur (y, loc) =
          XSpec.of_competitor <$> Competitive.candidate m x cur (y, loc)) as ->.
  { unfold XCompetitive.candidate, Competitive.candidate. cbn.
    destruct (decide (y = x)); [done|]. destruct (Rle_dec _ _); [|done].
    cbn. unfold XSpec.of_competitor. cbn. by rewrite float_get. }
  destruct (Competitive.candidate m x cur (y, loc)) as [c|]; cbn [fmap option_fmap option_map];
    [|exact IH].
  unfold XCompetitive.sorted_by_distance, Competitive.sorted_by_distance in *.
  cbn [foldr]. rewrite IH. apply float_insert_by_distance.
Qed.

Lemma float_find_competitors (m : Competitive.model) (x : Z) :
  XCompetitive.find_competitors
    (XCompetitive.Model (Competitive.base_price m)
       (XEngine.of_ledger (Competitive.prices m)) (Competitive.locations m)) x =
    XSpec.of_competitor <$> Competitive.find_competitors m x.
Proof.
  unfold XCompetitive.find_competitors, Competitive.find_competitors.
  cbn [XCompetitive.locations].
  destruct (Competitive.lookup_location x (Competitive.locations m)) as [cur|]; [|done].
  apply float_sorted_candidates.
Qed.

Lemma float_adjustment (m : Competitive.model) (x : Z) (occ cap : Z) :
  Competitive.get_current_price m x ≠ 0 →
  XCompetitive.calculate_competitive_adjustment
    (XCompetitive.Model (Competitive.base_price m)
       (XEngine.of_ledger (Competitive.prices m)) (Competitive.locations m)) x occ cap =
    Fin (Competitive.calculate_competitive_adjustment m x occ cap).
Proof.
  intros Hcur.
  unfold XCompetitive.calculate_competitive_adjustment,
    Competitive.calculate_competitive_adjustment.
  rewrite float_find_competitors. cbn [XCompetitive.prices XCompetitive.base_price].
  unfold XEngine.of_ledger at 1. cbn [xcurrent_prices]. rewrite float_get.
  destruct (Competitive.find_competitors m x) as [|c cs]; [done|].
  assert (XCompetitive.price <$> (XSpec.of_competitor <$> c :: cs) =
          Fin <$> (Competitive.price <$> c :: cs)) as ->.
  { rewrite <- !list_fmap_compose. by apply list_fmap_ext. }
  rewrite float_mean by done. cbn [fmap list_fmap].
  destruct (decide (occ >= cap)%Z).
  - cbn. by destruct (Rlt_dec _ _).
  - cbn. rewrite float_get.
    destruct (Req_dec_T (Py.get (current_prices (Competitive.prices m)) x
                           (Competitive.base_price m)) 0) as [E|_]; [done|].
    cbn. done.
Qed.

Lemma float_price_agrees (s : strategy) (x : Z) (r : row) :
  Engine.get_current_price s x ≠ 0 →
  XSpec.price_of (XSpec.of_strategy s) x (XSpec.of_row r) = Fin (price_of s x r).
Proof.
  intros Hcur. destruct s as [m|m|m].
  - unfold XSpec.price_of, XSpec.candidate_price, price_of, Baseline.next_price,
      Baseline.candidate, Baseline.dampen, Baseline.get_current_price, get_current_price.
    cbn. rewrite float_get. cbn.
    destruct (Rlt_dec _ _); cbn; [apply float_clamp|].
    destruct (Rgt_dec _ _) as [Hg|Hg], (Rlt_dec _ _) as [Hl|Hl]; cbn;
      try apply float_clamp; unfold Rgt in Hg; done.
  - apply float_demand_price_agrees.
  - unfold XSpec.price_of, XSpec.candidate_price, price_of, blend,
      XCompetitive.calculate_demand, Competitive.demand_price,
      Competitive.calculate_demand, Competitive.get_current_price, get_current_price.
    cbn [XSpec.of_strategy XSpec.of_row XEngine.base_price Engine.base_price x_feats
         x_occupancy x_capacity XCompetitive.base_price XCompetitive.prices
         XCompetitive.locations feats occupancy capacity].
    rewrite float_of_vivify.
    pose proof (float_adjustment
                  (Competitive.Model (Competitive.base_price m)
                     (Ledger.vivify (Competitive.base_price m) x (Competitive.prices m))
                     (Competitive.locations m)) x (occupancy r) (capacity r)) as Hadj.
    cbn [Competitive.base_price Competitive.prices Competitive.locations] in Hadj.
    rewrite Hadj.
    2:{ unfold Competitive.get_current_price, get_current_price. cbn.
        unfold Py.get. rewrite vivify_current. exact Hcur. }
    rewrite adjustment_vivify.
    destruct m as [b l locs]. cbn [Competitive.base_price Competitive.prices
      Competitive.locations].
    unfold XEngine.of_ledger at 1. cbn [xcurrent_prices]. rewrite float_get.
    pose proof (float_demand_price_agrees (XDemand.Model b XLedger.empty) x (feats r) 0 0)
      as Hd.
    unfold XSpec.price_of, XSpec.candidate_price, XDemand.normalize_demand in Hd.
    cbn [XEngine.base_price XDemand.base_price x_feats] in Hd.
    destruct (Xf.tanh (XDemand.calculate_demand (XEngine.of_features (feats r))))
      as [t| | |] eqn:Ht.
    + assert (t = tanh (Demand.calculate_demand (feats r))) as ->.
      { revert Ht. unfold XDemand.calculate_demand, XEngine.of_features,
          Demand.calculate_demand. cbn.
        destruct (Req_dec_T 20.0 0) as [E|_]; [lra|].
        destruct (Req_dec_T 9.0 0) as [E|_]; [lra|].
        unfold Xf.min, Py.min. cbn.
        destruct (Rlt_dec 1.0 (IZR (queue_length (feats r)) / 20.0)); cbn;
          intros [= <-]; f_equal; lra. }
      cbn. rewrite float_clamp. done.
    + exfalso. revert Ht. unfold XDemand.calculate_demand, XEngine.of_features. cbn.
      destruct (Req_dec_T 20.0 0) as [E|_]; [lra|].
      destruct (Req_dec_T 9.0 0) as [E|_]; [lra|].
      unfold Xf.min. cbn. by destruct (Rlt_dec _ _).
    + exfalso. revert Ht. unfold XDemand.calculate_demand, XEngine.of_features. cbn.
      destruct (Req_dec_T 20.0 0) as [E|_]; [lra|].
      destruct (Req_dec_T 9.0 0) as [E|_]; [lra|].
      unfold Xf.min. cbn. by destruct (Rlt_dec _ _).
    + exfalso. revert Ht. unfold XDemand.calculate_demand, XEngine.of_features. cbn.
      destruct (Req_dec_T 20.0 0) as [E|_]; [lra|].
      destruct (Req_dec_T 9.0 0) as [E|_]; [lra|].
      unfold Xf.min. cbn. by destruct (Rlt_dec _ _).
Qed.

Lemma float_model_agrees (s : strategy) (x : Z) (r : row) :
  Ledger.ok (Engine.prices s) →
  Engine.get_current_price s x ≠ 0 →
  ∃ p s', Engine.update_price s x r = Some (p, s') ∧
          XEngine.update_price (XSpec.of_strategy s) x (XSpec.of_row r) =
            Some (Fin p, XSpec.of_strategy s').
Proof.
  intros Hok Hcur.
  destruct (commit (Engine.base_price s) x (price_of s x r) _ Hok) as (l2 & Hrec & _).
  eexists _, _. split; [by apply update_price_commit|].
  rewrite XFacts.float_update_price_commit, (float_price_agrees s x r Hcur).
  assert (XEngine.prices (XSpec.of_strategy s) = XEngine.of_ledger (Engine.prices s)
          ∧ XEngine.base_price (XSpec.of_strategy s) = Engine.base_price s) as [-> ->]
    by (by destruct s).
  rewrite float_of_vivify, float_of_record, Hrec. cbn. by destruct s.
Qed.

(** The two units of the scenario in the float model. *)
Lemma float_two_units_competitors :
  XCompetitive.find_competitors XScenario.m2 1 =
    [XCompetitive.Competitor 2 0.001 (Fin 10.0)].
Proof.
  unfold XCompetitive.find_competitors, XScenario.m2, Scenario.locs2.
  cbn -[Competitive.calculate_distance].
  repeat (case_decide; try done). cbn -[Competitive.calculate_distance].
  assert (Competitive.calculate_distance 0 0 0 0.001 = 0.001) as ->.
  { unfold Competitive.calculate_distance.
    replace ((0 - 0) ^ 2 + (0 - 0.001) ^ 2) with (0.001 ^ 2) by lra.
    apply sqrt_pow2. lra. }
  destruct (Rle_dec 0.001 Competitive.competition_radius) as [_|Hn].
  - cbn. unfold Xf.get. rewrite lookup_insert_eq. done.
  - destruct Hn. unfold Competitive.competition_radius. lra.
Qed.

(** C4 with a rejected update and an unchanged ledger does not hold.  A
    record with capacity 0 for the initialised unit 1, which has unit 2 as
    its competitor, is priced as a full unit (adjustment 0.05), raises no
    error, and the unit's history goes from one entry to two.  A record
    whose occupancy rate is NaN raises no error either: the demand model
    stores the floor 5 and appends it. *)
Lemma invalid_inputs_are_recorded :
  (x_capacity (XRow XScenario.f0 3 0) <= 0)%Z ∧
  XCompetitive.calculate_competitive_adjustment XScenario.m2 1 3 0 = Fin 0.05 ∧
  XEngine.get_price_history (XCompetitiveS XScenario.m2) 1 = [Fin 10.0] ∧
  (∃ p s', XEngine.update_price (XCompetitiveS XScenario.m2) 1 (XRow XScenario.f0 3 0)
             = Some (Fin p, s') ∧
           XEngine.get_price_history s' 1 = [Fin 10.0; Fin p]) ∧
  x_occupancy_rate XScenario.f_nan = NaN ∧
  XEngine.get_price_history (XDemandS XScenario.d1) 1 = [Fin 10.0] ∧
  (∃ s', XEngine.update_price (XDemandS XScenario.d1) 1 (XRow XScenario.f_nan 3 5)
           = Some (Fin (10.0 * 0.5), s') ∧
         XEngine.get_price_history s' 1 = [Fin 10.0; Fin (10.0 * 0.5)]).
Proof.
  assert (XEngine.get_price_history (XCompetitiveS XScenario.m2) 1 = [Fin 10.0]) as Hh2.
  { unfold XEngine.get_price_history, XLedger.get_price_history. cbn.
    rewrite lookup_insert_ne by done. by rewrite lookup_insert_eq. }
  assert (XEngine.get_price_history (XDemandS XScenario.d1) 1 = [Fin 10.0]) as Hh1.
  { unfold XEngine.get_price_history, XLedger.get_price_history. cbn.
    by rewrite lookup_insert_eq. }
  split; [cbn; lia|]. split; [|split; [exact Hh2|split; [|split; [done|split; [exact Hh1|]]]]].
  - unfold XCompetitive.calculate_competitive_adjustment.
    rewrite float_two_units_competitors. rewrite decide_True by lia.
    unfold Xf.get. cbn -[Req_dec_T Rlt_dec INR].
    rewrite lookup_insert_ne by done. rewrite lookup_insert_eq.
    unfold Xf.mean, Xf.sum. cbn -[Req_dec_T Rlt_dec].
    destruct (Req_dec_T 1 0) as [E|_]; [lra|]. cbn.
    destruct (Rlt_dec _ _) as [Hlt|_]; [lra|done].
  - destruct (XFacts.float_update_price_total (XCompetitiveS XScenario.m2) 1
                (XRow XScenario.f0 3 0)) as (s' & Hup & _ & Hb & _ & Hh).
    { apply XFacts.float_ok_initialize, XFacts.float_ok_empty. }
    destruct (XFacts.float_clamp_finite (10.0 * 0.5) (10.0 * 2.0)
                (XSpec.candidate_price (XCompetitiveS XScenario.m2) 1
                   (XRow XScenario.f0 3 0))) as (p & Hp & _); [lra|].
    unfold XSpec.price_of in Hup, Hh.
    change (XEngine.base_price (XCompetitiveS XScenario.m2)) with 10.0 in Hup, Hh.
    rewrite Hp in Hup, Hh. exists p, s'. split; [exact Hup|].
    unfold XEngine.get_price_history, XLedger.get_price_history at 1.
    rewrite Hh. by rewrite Hh2.
  - destruct (XFacts.float_update_price_total (XDemandS XScenario.d1) 1
                (XRow XScenario.f_nan 3 5)) as (s' & Hup & _ & Hb & _ & Hh).
    { apply XFacts.float_ok_initialize, XFacts.float_ok_empty. }
    unfold XSpec.price_of in Hup, Hh.
    rewrite (XFacts.float_candidate_price_nan (XDemandS XScenario.d1) 1
               (XRow XScenario.f_nan 3 5)) in Hup, Hh by (cbn; by left).
    change (XEngine.base_price (XDemandS XScenario.d1)) with 10.0 in Hup, Hh.
    rewrite XFacts.float_clamp_nan in Hup, Hh. exists s'. split; [exact Hup|].
    unfold XEngine.get_price_history, XLedger.get_price_history at 1.
    rewrite Hh. by rewrite Hh1.
Qed.

(** C5. The price [DemandBasedModel.update_price] returns is a function of
    the features and the base price alone: two calls with the same
    features return the same price whatever the units and whatever the
    ledgers (their stored prices and histories). *)
Theorem demand_update_memoryless (m1 m2 : Demand.model) (x1 x2 : Z) (f : features) :
  Demand.base_price m1 = Demand.base_price m2 →
  Ledger.ok (Demand.prices m1) →
  Ledger.ok (Demand.prices m2) →
  ∃ p m1' m2',
    Demand.update_price m1 x1 f = Some (p, m1') ∧
    Demand.update_price m2 x2 f = Some (p, m2') ∧
    p = Demand.next_price (Demand.base_price m1) f.
Proof.
  intros Hb Hok1 Hok2.
  destruct (demand_update_total m1 x1 f Hok1) as (l1 & H1 & _).
  destruct (demand_update_total m2 x2 f Hok2) as (l2 & H2 & _).
  eexists _, _, _. split; [exact H1|]. split; [|done].
  rewrite H2, Hb. done.
Qed.

Lemma demand_update_memoryless_witness :
  ∃ p m1' m2',
    Demand.update_price Demand.default 1 Scenario.f0 = Some (p, m1') ∧
    Demand.update_price (Demand.initialize_prices Demand.default [1%Z; 2%Z]) 2 Scenario.f0
      = Some (p, m2') ∧
    p = Demand.next_price (Demand.base_price Demand.default) Scenario.f0.
Proof.
  apply (demand_update_memoryless Demand.default
           (Demand.initialize_prices Demand.default [1%Z; 2%Z]) 1 2 Scenario.f0).
  - reflexivity.
  - apply ok_empty.
  - apply ok_initialize, ok_empty.
Defined.

(** C6. For each strategy, after a stream of updates that holds [N]
    records for a unit the ledger had never seen, the unit's history has
    [N + 1] entries, starts with the base price and ends with the unit's
    current price; as soon as [N] is positive that history and that price
    are the stored ones.  Records for other units may come in between. *)
Theorem history_of_unseen_unit (s : strategy) (x : Z) (stream : list (Z * row)) :
  Ledger.ok (Engine.prices s) →
  current_prices (Engine.prices s) !! x = None →
  ∃ s', Engine.run s stream = Some s' ∧
        length (Engine.get_price_history s' x) = S (Engine.updates_of x stream) ∧
        head (Engine.get_price_history s' x) = Some (Engine.base_price s) ∧
        last (Engine.get_price_history s' x) = Some (Engine.get_current_price s' x) ∧
        ((0 < Engine.updates_of x stream)%nat →
         price_history (Engine.prices s') !! x = Some (Engine.get_price_history s' x) ∧
         current_prices (Engine.prices s') !! x = Some (Engine.get_current_price s' x)).
Proof.
  intros Hok Hx.
  destruct (history_run stream 0 s x Hok (history_unseen s x Hok Hx))
    as (s' & Hrun & Hok' & Hb & Hlen & Hhd & Hlast & Hin).
  exists s'. cbn [Nat.add] in *. rewrite <- Hb.
  split; [done|]. split; [done|]. split; [done|]. split; [done|].
  intros Hn. destruct (getters_stored s' x Hok' (Hin Hn)) as [Hc Hh]. done.
Qed.

Lemma history_of_unseen_unit_witness :
  ∃ s', Engine.run (BaselineS Baseline.default)
          [(7%Z, Scenario.row0); (8%Z, Scenario.row0); (7%Z, Scenario.row0)] = Some s' ∧
        length (Engine.get_price_history s' 7) = 3%nat ∧
        head (Engine.get_price_history s' 7) = Some 10.0 ∧
        last (Engine.get_price_history s' 7) = Some (Engine.get_current_price s' 7).
Proof.
  destruct (history_of_unseen_unit (BaselineS Baseline.default) 7
              [(7%Z, Scenario.row0); (8%Z, Scenario.row0); (7%Z, Scenario.row0)])
    as (s' & Hrun & Hlen & Hhd & Hlast & _).
  - apply ok_empty.
  - apply lookup_empty.
  - exists s'. repeat split; assumption.
Defined.

(** C10. For each strategy, [update_price] for unit [x] leaves every other
    unit as it was: its current price, its history and, in the competitive
    model, the locations. *)
Theorem update_price_frame (s : strategy) (x y : Z) (r : row) :
  y ≠ x →
  Ledger.ok (Engine.prices s) →
  ∃ p s', Engine.update_price s x r = Some (p, s') ∧
          current_prices (Engine.prices s') !! y = current_prices (Engine.prices s) !! y ∧
          price_history (Engine.prices s') !! y = price_history (Engine.prices s) !! y ∧
          Engine.locations s' = Engine.locations s.
Proof.
  intros Hne Hok.
  destruct (update_price_total s x r Hok) as (l' & Hup & _ & _ & _ & Hfr).
  eexists _, _. split; [exact Hup|]. rewrite prices_with_prices.
  destruct (Hfr y Hne) as [-> ->]. repeat split. by destruct s.
Qed.

Lemma update_price_frame_witness :
  ∃ p s', Engine.update_price (CompetitiveS Scenario.m2) 1 Scenario.row0 = Some (p, s') ∧
          current_prices (Engine.prices s') !! 2%Z =
            current_prices (Engine.prices (CompetitiveS Scenario.m2)) !! 2%Z ∧
          price_history (Engine.prices s') !! 2%Z =
            price_history (Engine.prices (CompetitiveS Scenario.m2)) !! 2%Z ∧
          Engine.locations s' = Engine.locations (CompetitiveS Scenario.m2).
Proof.
  apply (update_price_frame (CompetitiveS Scenario.m2) 1 2 Scenario.row0).
  - discriminate.
  - apply ok_initialize, ok_empty.
Defined.

(** * Competitors *)

Import CompetitorFacts.

(** The spec's scenario of two units 0.001 degrees apart: unit 2 is the
    sole competitor of unit 1, at distance 0.001 and at its current price. *)
Lemma two_units_distance : Competitive.calculate_distance 0 0 0 0.001 = 0.001.
Proof.
  unfold Competitive.calculate_distance.
  replace ((0 - 0) ^ 2 + (0 - 0.001) ^ 2) with (0.001 ^ 2) by lra.
  apply sqrt_pow2. lra.
Qed.

Lemma two_units_competitors :
  Competitive.find_competitors Scenario.m2 1 = [Competitive.Competitor 2 0.001 10.0].
Proof.
  unfold Competitive.find_competitors, Scenario.m2, Scenario.locs2.
  cbn -[Competitive.calculate_distance].
  repeat (case_decide; try done). cbn -[Competitive.calculate_distance].
  rewrite two_units_distance.
  destruct (Rle_dec 0.001 Competitive.competition_radius) as [_|Hn].
  - cbn. unfold Py.get. rewrite lookup_insert_eq. done.
  - destruct Hn. unfold Competitive.competition_radius. lra.
Qed.



(** The demand score of a valid record is above [-0.2]. *)
Lemma valid_demand_lower (f : features) :
  valid_features f →
  -0.2 < Demand.alpha * occupancy_rate f +
         Demand.beta * Py.min (IZR (queue_length f) / 20.0) 1.0 -
         Demand.gamma * ((IZR (traffic_level f) - 1) / 9.0) +
         Demand.delta * (if is_special_day f then 1.0 else 0.0) +
         Demand.epsilon * vehicle_weight f.
Proof.
  intros ([Ho1 Ho2] & Hq & [Ht1 Ht2] & Hv).
  apply IZR_le in Hq, Ht1, Ht2.
  unfold Demand.alpha, Demand.beta, Demand.gamma, Demand.delta, Demand.epsilon, Py.min.
  destruct (Rlt_dec _ _); destruct (is_special_day f); lra.
Qed.

(** Both [calculate_demand] compute the written score; the competitive
    one returns its hyperbolic tangent. *)
Lemma py_min_Rmin (a b : R) : Py.min a b = Rmin a b.
Proof.
  unfold Py.min, Rmin. destruct (Rlt_dec b a), (Rle_dec a b); lra.
Qed.

Lemma calculate_demand_written (f : features) :
  Demand.calculate_demand f = Formulas.demand_score f ∧
  Competitive.calculate_demand f = tanh (Formulas.demand_score f).
Proof.
  unfold Demand.calculate_demand, Competitive.calculate_demand, Formulas.demand_score,
    Demand.alpha, Demand.beta, Demand.gamma, Demand.delta, Demand.epsilon,
    Competitive.alpha, Competitive.beta, Competitive.gamma, Competitive.delta,
    Competitive.epsilon.
  rewrite py_min_Rmin.
  replace (Rmin (IZR (queue_length f) / 20.0) 1.0)
    with (Rmin (IZR (queue_length f) / 20) 1) by (f_equal; lra).
  split; [|f_equal]; destruct (is_special_day f); lra.
Qed.

(** C3. When a unit has no competitor, the adjustment is 0 and
    [update_price] returns exactly
    [demand_weight * demand_price + competition_weight * current_price],
    with [demand_price = base_price * (1 + lambda_param * tanh(demand))],
    [demand] the weighted score of the record and the weights 0.7, 0.3 and
    0.8: for a valid record and a stored price within the bounds the hard
    clamp leaves that value as it is. *)
Theorem no_competitor_update (m : Competitive.model) (x : Z) (f : features)
    (occ cap : Z) :
  Competitive.find_competitors m x = [] →
  valid_features f →
  Competitive.base_price m * 0.5 <= Competitive.get_current_price m x
    <= Competitive.base_price m * 2.0 →
  Ledger.ok (Competitive.prices m) →
  Competitive.calculate_competitive_adjustment m x occ cap = 0.0 ∧
  (∃ m', Competitive.update_price m x f occ cap =
           Some (Competitive.demand_weight *
                   (Competitive.base_price m *
                      (1 + Competitive.lambda_param * tanh (Formulas.demand_score f))) +
                 Competitive.competition_weight * Competitive.get_current_price m x,
                 m')) ∧
  Competitive.demand_weight *
    (Competitive.base_price m *
       (1 + Competitive.lambda_param * tanh (Formulas.demand_score f))) +
  Competitive.competition_weight * Competitive.get_current_price m x =
    0.7 * (Competitive.base_price m * (1 + 0.8 * tanh (Formulas.demand_score f))) +
    0.3 * Competitive.get_current_price m x.
Proof.
  intros Hnone Hf Hcur Hok.
  assert (Competitive.calculate_competitive_adjustment m x occ cap = 0.0) as Hadj.
  { unfold Competitive.calculate_competitive_adjustment. by rewrite Hnone. }
  split; [exact Hadj|]. split; [|done].
  destruct (competitive_update_total m x f occ cap Hok) as (l' & Hup & _).
  eexists. rewrite Hup. f_equal. f_equal.
  unfold blend, Competitive.demand_price. rewrite Hadj.
  rewrite (proj2 (calculate_demand_written f)).
  set (t := tanh (Formulas.demand_score f)).
  assert (-0.625 <= t < 1) as Ht.
  { subst t. rewrite <- (proj1 (calculate_demand_written f)). split.
    - apply tanh_lower, (valid_demand_lower f Hf).
    - apply tanh_bounds. }
  set (b := Competitive.base_price m) in *.
  set (c := Competitive.get_current_price m x) in *.
  unfold Competitive.demand_weight, Competitive.competition_weight,
    Competitive.lambda_param.
  replace (0.7 * (b * (1 + 0.8 * t)) + 0.3 * (c * (1 + 0.0)))
    with (0.7 * (b * (1 + 0.8 * t)) + 0.3 * c) by lra.
  apply clamp_id; nra.
Qed.

Lemma no_competitor_update_witness :
  ∃ m', Competitive.update_price Scenario.m1 1 Scenario.f0 40 50 =
          Some (Competitive.demand_weight *
                  (10.0 * (1 + Competitive.lambda_param *
                                 tanh (Formulas.demand_score Scenario.f0))) +
                Competitive.competition_weight * Competitive.get_current_price Scenario.m1 1,
                m').
Proof.
  refine (proj1 (proj2 (no_competitor_update Scenario.m1 1 Scenario.f0 40 50 _ _ _ _))).
  - reflexivity.
  - unfold valid_features, Scenario.f0; cbn. repeat split; (lra || lia).
  - unfold Competitive.get_current_price, get_current_price, Py.get. cbn.
    rewrite lookup_insert_eq. lra.
  - apply ok_initialize, ok_empty.
Defined.



(** Filtering keeps a list sorted. *)
Lemma StronglySorted_filter {A} (Rel : relation A) (P : A → Prop)
    `{!∀ a, Decision (P a)} (l : list A) :
  StronglySorted Rel l → StronglySorted Rel (filter P l).
Proof.
  induction 1 as [|a l Hs IH Ha]; [constructor|].
  rewrite filter_cons. destruct (decide (P a)); [|done].
  constructor; [done|].
  apply Forall_forall. intros b [_ Hb]%list_elem_of_filter.
  by eapply Forall_forall in Ha.
Qed.

Lemma suggestions_filter (cur : R) (l : list Competitive.competitor) :
  omap (λ comp,
          if Rle_dec (Competitive.price comp) (cur * 1.1) then
            Some (Competitive.Suggestion (Competitive.space_id comp)
                    (Competitive.distance comp * 111) (Competitive.price comp)
                    (cur - Competitive.price comp))
          else None) l =
  to_suggestion cur <$> filter (qualifies cur) l.
Proof.
  induction l as [|c l IH]; [done|].
  rewrite filter_cons. cbn [omap list_omap]. rewrite IH.
  unfold qualifies at 2. unfold decide, Rle_decision.
  by destruct (Rle_dec _ _).
Qed.

(** C9. [suggest_rerouting] returns nothing while the unit has room.
    When it is full, the result reports a prefix of at most three of the
    competitors priced at or below 1.1 times the current price, taken in
    ascending order of distance, so the nearest ones; each is reported
    with its distance times 111 and the current price minus its price. *)
Theorem suggest_rerouting_spec (m : Competitive.model) (x : Z) (occ cap : Z) :
  let current_price := Competitive.get_current_price m x in
  let qualifying := filter (qualifies current_price) (Competitive.find_competitors m x) in
  ((occ < cap)%Z → Competitive.suggest_rerouting m x occ cap = []) ∧
  ((occ >= cap)%Z →
   ∃ chosen rest,
     Competitive.suggest_rerouting m x occ cap = to_suggestion current_price <$> chosen ∧
     qualifying = chosen ++ rest ∧
     (length chosen <= 3)%nat ∧
     (rest ≠ [] → length chosen = 3%nat) ∧
     StronglySorted Competitive.nearer chosen ∧
     (∀ c d, c ∈ chosen → d ∈ rest → Competitive.distance c <= Competitive.distance d) ∧
     (∀ c, c ∈ chosen →
           c ∈ Competitive.find_competitors m x ∧
           Competitive.price c <= current_price * 1.1) ∧
     (∀ e, e ∈ Competitive.suggest_rerouting m x occ cap →
           ∃ c, c ∈ chosen ∧
                Competitive.sug_space_id e = Competitive.space_id c ∧
                Competitive.distance_km e = Competitive.distance c * 111 ∧
                Competitive.sug_price e = Competitive.price c ∧
                Competitive.savings e = current_price - Competitive.price c)).
Proof.
  intros current_price qualifying. split.
  - intros Hroom. unfold Competitive.suggest_rerouting. by rewrite decide_True.
  - intros Hfull.
    assert (Competitive.suggest_rerouting m x occ cap =
            to_suggestion current_price <$> take 3 qualifying) as Heq.
    { unfold Competitive.suggest_rerouting. rewrite decide_False by lia.
      unfold Py.slice_to. rewrite suggestions_filter. by rewrite fmap_take. }
    assert (StronglySorted Competitive.nearer qualifying) as Hsorted
      by apply StronglySorted_filter, find_competitors_sorted.
    exists (take 3 qualifying), (drop 3 qualifying).
    rewrite <- (take_drop 3 qualifying) in Hsorted.
    apply StronglySorted_app in Hsorted as (Hs12 & Hs1 & _).
    split; [exact Heq|]. split; [by rewrite take_drop|].
    split; [rewrite length_take; lia|].
    split.
    { intros Hrest. rewrite length_take.
      destruct (decide (length qualifying <= 3)%nat) as [Hle|Hgt]; [|lia].
      by rewrite drop_ge in Hrest. }
    split; [exact Hs1|]. split; [exact Hs12|]. split.
    + intros c Hc. apply subseteq_take in Hc.
      apply list_elem_of_filter in Hc as [Hq Hc]. done.
    + intros e He. rewrite Heq in He.
      apply list_elem_of_fmap in He as (c & -> & Hc).
      exists c. done.
Qed.

Lemma suggest_rerouting_spec_witness :
  Competitive.suggest_rerouting Scenario.m2 1 40 50 = [] ∧
  ∃ chosen rest,
    Competitive.suggest_rerouting Scenario.m2 1 50 50 =
      to_suggestion (Competitive.get_current_price Scenario.m2 1) <$> chosen ∧
    filter (qualifies (Competitive.get_current_price Scenario.m2 1))
           (Competitive.find_competitors Scenario.m2 1) = chosen ++ rest ∧
    (length chosen <= 3)%nat.
Proof.
  split.
  - refine (proj1 (suggest_rerouting_spec Scenario.m2 1 40 50) _). lia.
  - destruct (proj2 (suggest_rerouting_spec Scenario.m2 1 50 50))
      as (chosen & rest & Hres & Hsplit & Hlen & _); [lia|].
    exists chosen, rest. split; [exact Hres|]. split; [exact Hsplit|exact Hlen].
Defined.

(** The full unit 1 of the two-unit scenario is sent to unit 2, about
    0.111 km away, at no saving. *)
Example two_units_rerouting :
  Competitive.suggest_rerouting Scenario.m2 1 50 50 =
    [Competitive.Suggestion 2 (0.001 * 111) 10.0 (10.0 - 10.0)].
Proof.
  unfold Competitive.suggest_rerouting. rewrite decide_False by lia.
  rewrite two_units_competitors.
  assert (Py.get (current_prices (Competitive.prices Scenario.m2)) 1
                 (Competitive.base_price Scenario.m2) = 10.0) as ->.
  { unfold Py.get. cbn. rewrite lookup_insert_ne by done. by rewrite lookup_insert_eq. }
  cbn. destruct (Rle_dec _ _) as [_|Hn]; [done|]. destruct Hn. lra.
Qed.

(** * Further properties of the ledger *)

Import Props.

Lemma initialize_lookup (b : R) (ids : list Z) : ∀ (l : ledger) (x : Z),
  (x ∈ ids →
   current_prices (Ledger.initialize b ids l) !! x = Some b ∧
   price_history (Ledger.initialize b ids l) !! x = Some [b]) ∧
  (x ∉ ids →
   current_prices (Ledger.initialize b ids l) !! x = current_prices l !! x ∧
   price_history (Ledger.initialize b ids l) !! x = price_history l !! x).
Proof.
  induction ids as [|y ids IH]; intros l x.
  - split; [by intros ?%elem_of_nil|done].
  - cbn [Ledger.initialize].
    destruct (IH (Ledger (<[y:=b]> (current_prices l)) (<[y:=[b]]> (price_history l))) x)
      as [IHin IHout].
    destruct (decide (x ∈ ids)) as [Hin|Hout].
    + split; [intros _; by apply IHin|].
      intros Hn. destruct Hn. by apply list_elem_of_further.
    + destruct (IHout Hout) as [-> ->]. cbn. split.
      * intros [->|?]%elem_of_cons; [|done]. by rewrite !lookup_insert_eq.
      * intros Hn. rewrite !lookup_insert_ne; [done|..];
          intros ->; apply Hn, list_elem_of_here.
Qed.

Lemma prices_initialize (s : strategy) ids locs :
  Engine.prices (initialize_prices s ids locs) =
    Ledger.initialize (Engine.base_price s) ids (Engine.prices s) ∧
  Engine.base_price (initialize_prices s ids locs) = Engine.base_price s.
Proof. by destruct s. Qed.

(** X1. [initialize_prices] of each class gives every listed unit the base
    price and the one-entry history [[base_price]], whatever the unit had
    before, leaves every other unit as it was and keeps the ledger well
    formed. *)
Theorem initialize_prices_resets (s : strategy) (ids : list Z)
    (locs : list (Z * Competitive.location)) (x : Z) :
  Ledger.ok (Engine.prices s) →
  let s' := initialize_prices s ids locs in
  Ledger.ok (Engine.prices s') ∧
  (x ∈ ids →
   current_prices (Engine.prices s') !! x = Some (Engine.base_price s) ∧
   price_history (Engine.prices s') !! x = Some [Engine.base_price s]) ∧
  (x ∉ ids →
   current_prices (Engine.prices s') !! x = current_prices (Engine.prices s) !! x ∧
   price_history (Engine.prices s') !! x = price_history (Engine.prices s) !! x).
Proof.
  intros Hok s'. subst s'.
  destruct (prices_initialize s ids locs) as [-> _].
  split; [by apply ok_initialize|]. apply initialize_lookup.
Qed.

Lemma initialize_prices_resets_witness :
  current_prices (Engine.prices
    (initialize_prices (DemandS Demand.default) [1%Z; 2%Z] [])) !! 2%Z = Some 10.0.
Proof.
  refine (proj1 (proj1 (proj2 (initialize_prices_resets (DemandS Demand.default)
                                 [1%Z; 2%Z] [] 2 _)) _)).
  - apply ok_empty.
  - set_solver.
Defined.

(** What one [update_price] that returns does to the ledger. *)
Lemma update_price_inv (s : strategy) (y : Z) (r : row) (p : R) (s' : strategy) :
  Ledger.ok (Engine.prices s) →
  Engine.update_price s y r = Some (p, s') →
  p = price_of s y r ∧
  Ledger.ok (Engine.prices s') ∧
  Engine.base_price s' = Engine.base_price s ∧
  Engine.locations s' = Engine.locations s ∧
  current_prices (Engine.prices s') !! y = Some p ∧
  price_history (Engine.prices s') !! y = Some (Engine.get_price_history s y ++ [p]) ∧
  ∀ x, x ≠ y →
       current_prices (Engine.prices s') !! x = current_prices (Engine.prices s) !! x ∧
       price_history (Engine.prices s') !! x = price_history (Engine.prices s) !! x.
Proof.
  intros Hok Hup.
  destruct (update_price_total s y r Hok) as (l' & Hup' & Hok' & Hc & Hh & Hfr).
  rewrite Hup' in Hup. injection Hup as <- <-.
  rewrite base_price_with_prices, prices_with_prices.
  split; [done|]. split; [done|]. split; [done|]. split; [by destruct s|].
  split; [done|]. split; [done|]. exact Hfr.
Qed.

(** An invariant kept by every update is kept by every stream. *)
Lemma run_invariant (P : strategy → Prop) :
  (∀ s y r p s', Ledger.ok (Engine.prices s) → P s →
                 Engine.update_price s y r = Some (p, s') → P s') →
  ∀ stream s, Ledger.ok (Engine.prices s) → P s →
    ∃ s', Engine.run s stream = Some s' ∧ Ledger.ok (Engine.prices s') ∧ P s'.
Proof.
  intros Hstep stream. induction stream as [|[y r] stream IH]; intros s Hok HP.
  - exists s. done.
  - destruct (update_price_total s y r Hok) as (l' & Hup & Hok' & _).
    destruct (IH (with_prices s l')) as (s' & Hrun & Hok'' & HP').
    + by rewrite prices_with_prices.
    + eapply Hstep; [exact Hok|exact HP|exact Hup].
    + exists s'. cbn [Engine.run]. rewrite Hup. done.
Qed.

Lemma history_getter_step (s : strategy) (x y : Z) (r : row) (p : R) (s' : strategy) :
  Ledger.ok (Engine.prices s) →
  Engine.update_price s y r = Some (p, s') →
  Engine.get_price_history s' x =
    if decide (y = x) then Engine.get_price_history s x ++ [p]
    else Engine.get_price_history s x.
Proof.
  intros Hok Hup.
  destruct (update_price_inv s y r p s' Hok Hup) as (_ & _ & Hb & _ & _ & Hh & Hfr).
  unfold Engine.get_price_history, get_price_history, Py.get at 1. rewrite Hb.
  destruct (decide (y = x)) as [->|Hne].
  - by rewrite Hh.
  - destruct (Hfr x) as [_ Hx]; [done|]. unfold Py.get. by rewrite Hx.
Qed.

(** X2. Histories are append-only: after any stream of updates, for each
    strategy, what [get_price_history] returned for a unit before the
    stream is a prefix of what it returns afterwards. *)
Theorem history_append_only (s : strategy) (x : Z) (stream : list (Z * row)) :
  Ledger.ok (Engine.prices s) →
  ∃ s', Engine.run s stream = Some s' ∧
        Engine.get_price_history s x `prefix_of` Engine.get_price_history s' x.
Proof.
  intros Hok.
  destruct (run_invariant
              (λ s', Engine.get_price_history s x `prefix_of` Engine.get_price_history s' x))
    with (stream := stream) (s := s) as (s' & Hrun & _ & Hpre); [|done|done|by exists s'].
  intros s1 y r p s2 Hok1 Hpre Hup.
  rewrite (history_getter_step s1 x y r p s2 Hok1 Hup).
  destruct (decide (y = x)); [|done]. by apply prefix_app_r.
Qed.

Lemma history_append_only_witness :
  ∃ s', Engine.run (CompetitiveS Scenario.m2)
          [(1%Z, Scenario.row0); (2%Z, Scenario.row0); (1%Z, Scenario.row0)] = Some s' ∧
        Engine.get_price_history (CompetitiveS Scenario.m2) 1
          `prefix_of` Engine.get_price_history s' 1.
Proof.
  apply (history_append_only (CompetitiveS Scenario.m2) 1).
  apply ok_initialize, ok_empty.
Defined.

Lemma bounded_empty (b : R) : bounded b Ledger.empty.
Proof. split; intros x c; cbn; by rewrite lookup_empty. Qed.

Lemma bounded_initialize (b : R) (ids : list Z) (l : ledger) :
  0 <= b → bounded b l → bounded b (Ledger.initialize b ids l).
Proof.
  intros Hb [Hc Hh].
  assert (within_bounds b b) as Hbb by (unfold within_bounds; lra).
  split.
  - intros x c Hx. destruct (initialize_lookup b ids l x) as [Hin Hout].
    destruct (decide (x ∈ ids)) as [Hi|Hi].
    + destruct (Hin Hi) as [E _]. rewrite E in Hx. by injection Hx as <-.
    + destruct (Hout Hi) as [E _]. rewrite E in Hx. by eapply Hc.
  - intros x h Hx. destruct (initialize_lookup b ids l x) as [Hin Hout].
    destruct (decide (x ∈ ids)) as [Hi|Hi].
    + destruct (Hin Hi) as [_ E]. rewrite E in Hx. injection Hx as <-.
      by constructor.
    + destruct (Hout Hi) as [_ E]. rewrite E in Hx. by eapply Hh.
Qed.

Lemma bounded_getters (s : strategy) (x : Z) :
  0 <= Engine.base_price s →
  bounded (Engine.base_price s) (Engine.prices s) →
  within_bounds (Engine.base_price s) (Engine.get_current_price s x) ∧
  Forall (within_bounds (Engine.base_price s)) (Engine.get_price_history s x).
Proof.
  intros Hb [Hc Hh].
  assert (within_bounds (Engine.base_price s) (Engine.base_price s)) as Hbb
    by (unfold within_bounds; lra).
  unfold Engine.get_current_price, Engine.get_price_history,
    get_current_price, get_price_history, Py.get. split.
  - destruct (current_prices _ !! x) eqn:E; [by eapply Hc|done].
  - destruct (price_history _ !! x) eqn:E; [by eapply Hh|by constructor].
Qed.

Lemma bounded_step (s : strategy) (y : Z) (r : row) (p : R) (s' : strategy) :
  0 <= Engine.base_price s →
  Ledger.ok (Engine.prices s) →
  bounded (Engine.base_price s) (Engine.prices s) →
  Engine.update_price s y r = Some (p, s') →
  bounded (Engine.base_price s) (Engine.prices s').
Proof.
  intros Hb Hok Hbd Hup.
  destruct (update_price_inv s y r p s' Hok Hup) as (-> & _ & _ & _ & Hc & Hh & Hfr).
  pose proof (price_of_bounds s y r Hb) as Hp.
  destruct (bounded_getters s y Hb Hbd) as [_ Hold]. destruct Hbd as [Hbc Hbh].
  split.
  - intros x c Hx. destruct (decide (x = y)) as [->|Hne].
    + rewrite Hc in Hx. by injection Hx as <-.
    + destruct (Hfr x Hne) as [E _]. rewrite E in Hx. by eapply Hbc.
  - intros x h Hx. destruct (decide (x = y)) as [->|Hne].
    + rewrite Hh in Hx. injection Hx as <-.
      apply Forall_app. split; [done|]. by constructor.
    + destruct (Hfr x Hne) as [_ E]. rewrite E in Hx. by eapply Hbh.
Qed.

(** X3. The price bounds are an invariant of the ledger: with a
    non-negative base price, if every stored price and every history entry
    lies within [[base*0.5, base*2.0]], as after [initialize_prices] on a
    new model, then this still holds after any stream of updates. *)
Theorem bounds_invariant (s : strategy) (stream : list (Z * row)) :
  0 <= Engine.base_price s →
  Ledger.ok (Engine.prices s) →
  bounded (Engine.base_price s) (Engine.prices s) →
  ∃ s', Engine.run s stream = Some s' ∧
        bounded (Engine.base_price s) (Engine.prices s').
Proof.
  intros Hb Hok Hbd.
  destruct (run_invariant
              (λ s', Engine.base_price s' = Engine.base_price s ∧
                     bounded (Engine.base_price s) (Engine.prices s')))
    with (stream := stream) (s := s) as (s' & Hrun & _ & _ & Hbd');
    [|done|done|by exists s'].
  intros s1 y r p s2 Hok1 [Hb1 Hbd1] Hup. split.
  - destruct (update_price_inv s1 y r p s2 Hok1 Hup) as (_ & _ & Hb2 & _). congruence.
  - rewrite <- Hb1 in *. by eapply bounded_step.
Qed.

Lemma bounds_invariant_witness :
  ∃ s', Engine.run (initialize_prices (BaselineS Baseline.default) [1%Z; 2%Z] [])
          [(1%Z, Scenario.row0); (3%Z, Scenario.row0)] = Some s' ∧
        bounded 10.0 (Engine.prices s').
Proof.
  apply (bounds_invariant (initialize_prices (BaselineS Baseline.default) [1%Z; 2%Z] [])).
  - cbn; lra.
  - apply ok_initialize, ok_empty.
  - apply bounded_initialize; [cbn; lra|apply bounded_empty].
Defined.

(** X4. On a well-formed ledger no stream of updates raises: the run
    returns, the ledger stays well formed, the base price and the locations
    are what they were, and a unit no record of the stream names keeps its
    current price and its history. *)
Theorem run_total (s : strategy) (stream : list (Z * row)) :
  Ledger.ok (Engine.prices s) →
  ∃ s', Engine.run s stream = Some s' ∧
        Ledger.ok (Engine.prices s') ∧
        Engine.base_price s' = Engine.base_price s ∧
        Engine.locations s' = Engine.locations s ∧
        ∀ x, x ∉ stream.*1 →
             current_prices (Engine.prices s') !! x = current_prices (Engine.prices s) !! x ∧
             price_history (Engine.prices s') !! x = price_history (Engine.prices s) !! x.
Proof.
  revert s. induction stream as [|[y r] stream IH]; intros s Hok.
  - exists s. done.
  - destruct (update_price_total s y r Hok) as (l' & Hup & Hok' & _).
    destruct (update_price_inv s y r _ _ Hok Hup) as (_ & Hok1 & Hb1 & Hl1 & _ & _ & Hfr).
    destruct (IH _ Hok1) as (s' & Hrun & Hok2 & Hb2 & Hl2 & Hfr2).
    exists s'. cbn [Engine.run]. rewrite Hup. cbn.
    split; [done|]. split; [done|]. split; [congruence|]. split; [congruence|].
    intros x Hx. cbn in Hx. apply not_elem_of_cons in Hx as [Hne Hx].
    destruct (Hfr2 x Hx) as [-> ->]. by apply Hfr.
Qed.

Lemma run_total_witness :
  ∃ s', Engine.run (CompetitiveS Scenario.m2) [(1%Z, Scenario.row0)] = Some s' ∧
        Ledger.ok (Engine.prices s') ∧
        Engine.base_price s' = 10.0 ∧
        Engine.locations s' = Scenario.locs2.
Proof.
  destruct (run_total (CompetitiveS Scenario.m2) [(1%Z, Scenario.row0)])
    as (s' & Hrun & Hok & Hb & Hl & _).
  - apply ok_initialize, ok_empty.
  - exists s'. done.
Defined.

Lemma key_error_raise (s : strategy) (x : Z) (r : row) (c : R) :
  current_prices (Engine.prices s) !! x = Some c →
  price_history (Engine.prices s) !! x = None →
  Engine.update_price s x r = None.
Proof.
  intros Hc Hh.
  assert (Ledger.vivify (Engine.base_price s) x (Engine.prices s) = Engine.prices s) as Hv
    by (unfold Ledger.vivify; by rewrite Hc).
  destruct s as [m|m|m]; cbn in *.
  - unfold Baseline.update_price. rewrite Hv, Hc. cbn.
    unfold Ledger.record. by rewrite Hh.
  - unfold Demand.update_price. rewrite Hv. unfold Ledger.record. by rewrite Hh.
  - unfold Competitive.update_price. cbn. rewrite Hv, Hc. cbn.
    unfold Ledger.record. by rewrite Hh.
Qed.

(** X5. A unit with a current price but no history makes [update_price]
    of each strategy raise [KeyError]: the subscript
    [self.price_history[space_id]] of the final append fails. *)
Theorem update_price_key_error (s : strategy) (x : Z) (r : row) (c : R) :
  current_prices (Engine.prices s) !! x = Some c →
  price_history (Engine.prices s) !! x = None →
  Engine.update_price s x r = None.
Proof. exact (key_error_raise s x r c). Qed.

Lemma update_price_key_error_witness :
  Engine.update_price
    (DemandS (Demand.Model 10.0 (Ledger {[1%Z := 10.0]} ∅))) 1 Scenario.row0 = None.
Proof.
  apply (update_price_key_error _ 1 Scenario.row0 10.0).
  - cbn. apply lookup_singleton_eq.
  - cbn. apply lookup_empty.
Defined.

(** * Further properties of the baseline model *)

(** X6. While the candidate stays within the bounds the baseline model
    does what its docstring says: the returned price is
    [Price(t) + alpha * occupancy_rate], with no dampening and no clamp. *)
Theorem baseline_linear_step (m : Baseline.model) (x : Z) (occupancy_rate : R) :
  Ledger.ok (Baseline.prices m) →
  Baseline.base_price m * 0.5
    <= Baseline.get_current_price m x + Baseline.alpha m * occupancy_rate
    <= Baseline.base_price m * 2.0 →
  ∃ m', Baseline.update_price m x occupancy_rate =
          Some (Baseline.get_current_price m x + Baseline.alpha m * occupancy_rate, m').
Proof.
  intros Hok Hin.
  destruct (baseline_update_total m x occupancy_rate Hok) as (l' & Hup & _).
  eexists. rewrite Hup. f_equal. f_equal.
  unfold Baseline.next_price, Baseline.candidate, Baseline.dampen.
  destruct (Rlt_dec _ _); [lra|]. destruct (Rgt_dec _ _); [lra|].
  apply clamp_id. lra.
Qed.

Lemma baseline_linear_step_witness :
  ∃ m', Baseline.update_price Baseline.default 1 0.8 = Some (10.0 + 0.5 * 0.8, m').
Proof.
  apply (baseline_linear_step Baseline.default 1 0.8).
  - apply ok_empty.
  - unfold Baseline.get_current_price, get_current_price, Py.get. cbn.
    rewrite lookup_empty. lra.
Defined.

(** X7. Outside the bounds, with a non-negative base price.  A candidate
    below the floor is returned as the floor: the dampening there is undone
    by the clamp.  A candidate above the ceiling by at most 15 times the
    base price comes back below the ceiling by a tenth of the overshoot.  A
    candidate further above is returned as the floor. *)
Theorem baseline_out_of_range (m : Baseline.model) (x : Z) (occupancy_rate : R) :
  0 <= Baseline.base_price m →
  Ledger.ok (Baseline.prices m) →
  let new_price :=
    Baseline.get_current_price m x + Baseline.alpha m * occupancy_rate in
  let min_price := Baseline.base_price m * 0.5 in
  let max_price := Baseline.base_price m * 2.0 in
  ∃ p m', Baseline.update_price m x occupancy_rate = Some (p, m') ∧
    (new_price < min_price → p = min_price) ∧
    (max_price < new_price <= max_price + 15 * Baseline.base_price m →
     p = max_price - (new_price - max_price) * 0.1 ∧ p < max_price) ∧
    (max_price + 15 * Baseline.base_price m < new_price → p = min_price).
Proof.
  intros Hb Hok new_price min_price max_price.
  destruct (baseline_update_total m x occupancy_rate Hok) as (l' & Hup & _).
  eexists _, _. split; [exact Hup|].
  unfold Baseline.next_price, Baseline.candidate, Baseline.dampen.
  fold new_price. fold min_price. fold max_price.
  assert (min_price <= max_price) by (subst min_price max_price; lra).
  assert (max_price - min_price = 1.5 * Baseline.base_price m) as Hgap
    by (subst min_price max_price; lra).
  unfold Py.max, Py.min.
  split; [|split]; intros Hcase;
    destruct (Rlt_dec new_price min_price); try lra;
    destruct (Rgt_dec new_price max_price); try lra;
    repeat (destruct (Rlt_dec _ _)); try split; lra.
Qed.

Lemma baseline_out_of_range_witness :
  ∃ p m', Baseline.update_price Scenario.at_ceiling 1 1 = Some (p, m') ∧
          p = 10.0 * 2.0 - (20 + 0.5 * 1 - 10.0 * 2.0) * 0.1 ∧ p < 10.0 * 2.0.
Proof.
  assert (Baseline.get_current_price Scenario.at_ceiling 1 = 20) as Hcur.
  { unfold Baseline.get_current_price, get_current_price, Py.get. cbn.
    by rewrite lookup_singleton_eq. }
  destruct (baseline_out_of_range Scenario.at_ceiling 1 1) as (p & m' & Hup & _ & Hmid & _).
  - cbn; lra.
  - intros y. cbn. destruct (decide (y = 1%Z)) as [->|Hne].
    + rewrite !lookup_singleton_eq. split; eauto.
    + rewrite !lookup_singleton_ne by done. split; intros [? ?]; discriminate.
  - exists p, m'. split; [exact Hup|]. rewrite Hcur in Hmid. cbn in Hmid.
    apply Hmid. lra.
Defined.

(** * Further properties of the demand model *)

Lemma tanh_increasing (x y : R) : x <= y → tanh x <= tanh y.
Proof.
  intros Hxy.
  pose proof (tanh_exp x) as Ex. pose proof (tanh_exp y) as Ey.
  pose proof (exp_pos x) as Hx. pose proof (exp_pos (- x)) as Hx'.
  pose proof (exp_pos y) as Hy. pose proof (exp_pos (- y)) as Hy'.
  assert (exp x <= exp y) as Hle.
  { destruct Hxy as [Hlt| ->]; [|lra]. left. by apply exp_increasing. }
  assert (exp (- y) <= exp (- x)) as Hle'.
  { destruct Hxy as [Hlt| ->]; [|lra]. left. apply exp_increasing. lra. }
  assert (exp x * exp (- y) <= exp (- x) * exp y) as Hcross by nra.
  assert (0 < (exp x + exp (- x)) * (exp y + exp (- y))) as Hpos by nra.
  assert (tanh x * ((exp x + exp (- x)) * (exp y + exp (- y)))
          <= tanh y * ((exp x + exp (- x)) * (exp y + exp (- y)))) as Hmul by nra.
  by apply Rmult_le_reg_r in Hmul.
Qed.

Lemma clamp_monotone (lo hi v w : R) :
  v <= w → Py.max lo (Py.min v hi) <= Py.max lo (Py.min w hi).
Proof.
  intros Hvw. unfold Py.max, Py.min.
  repeat (destruct (Rlt_dec _ _)); lra.
Qed.

Lemma calculate_demand_monotone (f g : features) :
  features_le f g → Demand.calculate_demand f <= Demand.calculate_demand g.
Proof.
  intros (Ho & Hq & Ht & Hs & Hw).
  apply IZR_le in Hq, Ht.
  unfold Demand.calculate_demand, Demand.alpha, Demand.beta, Demand.gamma,
    Demand.delta, Demand.epsilon, Py.min.
  assert ((if is_special_day f then 1.0 else 0.0)
          <= (if is_special_day g then 1.0 else 0.0)) as Hsd.
  { destruct (is_special_day f); [rewrite Hs by done; lra|].
    destruct (is_special_day g); lra. }
  repeat (destruct (Rlt_dec _ _)); lra.
Qed.

Lemma next_price_monotone (b : R) (f g : features) :
  0 <= b → features_le f g → Demand.next_price b f <= Demand.next_price b g.
Proof.
  intros Hb Hfg. unfold Demand.next_price, Demand.normalize_demand.
  apply clamp_monotone.
  pose proof (tanh_increasing _ _ (calculate_demand_monotone f g Hfg)) as Ht.
  unfold Demand.lambda_param. nra.
Qed.



(** X9. The demand price is monotone in the features: a record with no
    lower occupancy rate, queue length and vehicle weight, no higher traffic
    level, and the special-day flag at least as set, never gets a lower
    price. *)
Theorem demand_price_monotone (m : Demand.model) (x y : Z) (f g : features) :
  0 <= Demand.base_price m →
  Ledger.ok (Demand.prices m) →
  features_le f g →
  ∃ pf pg mf mg,
    Demand.update_price m x f = Some (pf, mf) ∧
    Demand.update_price m y g = Some (pg, mg) ∧
    pf <= pg.
Proof.
  intros Hb Hok Hfg.
  destruct (demand_update_total m x f Hok) as (lf & Hf & _).
  destruct (demand_update_total m y g Hok) as (lg & Hg & _).
  eexists _, _, _, _. split; [exact Hf|]. split; [exact Hg|].
  by apply next_price_monotone.
Qed.

Lemma demand_price_monotone_witness :
  ∃ pf pg mf mg,
    Demand.update_price Demand.default 1 Scenario.f0 = Some (pf, mf) ∧
    Demand.update_price Demand.default 2 (Features 0.9 7 2 true 1.5) = Some (pg, mg) ∧
    pf <= pg.
Proof.
  apply (demand_price_monotone Demand.default 1 2 Scenario.f0 (Features 0.9 7 2 true 1.5)).
  - cbn; lra.
  - apply ok_empty.
  - unfold features_le, Scenario.f0; cbn. repeat split; (lra || lia || done).
Defined.

(** X10. The queue term saturates: any two queue lengths of 20 or more
    give the same demand score in both [calculate_demand], hence the same
    demand price. *)
Theorem queue_saturates (f : features) (q1 q2 : Z) :
  (20 <= q1)%Z →
  (20 <= q2)%Z →
  let f1 := Features (occupancy_rate f) q1 (traffic_level f) (is_special_day f)
                     (vehicle_weight f) in
  let f2 := Features (occupancy_rate f) q2 (traffic_level f) (is_special_day f)
                     (vehicle_weight f) in
  Demand.calculate_demand f1 = Demand.calculate_demand f2 ∧
  Competitive.calculate_demand f1 = Competitive.calculate_demand f2 ∧
  ∀ b, Demand.next_price b f1 = Demand.next_price b f2.
Proof.
  intros H1 H2 f1 f2. apply IZR_le in H1, H2.
  assert (∀ q, 20 <= q → Py.min (q / 20.0) 1.0 = 1.0) as Hsat.
  { intros q Hq. unfold Py.min. destruct (Rlt_dec _ _); lra. }
  assert (Demand.calculate_demand f1 = Demand.calculate_demand f2) as Hd.
  { unfold Demand.calculate_demand, f1, f2. cbn. by rewrite !Hsat. }
  split; [exact Hd|]. split.
  - unfold Competitive.calculate_demand, f1, f2. cbn. by rewrite !Hsat.
  - intros b. unfold Demand.next_price. by rewrite Hd.
Qed.

Lemma queue_saturates_witness :
  Demand.calculate_demand (Features 0.8 20 3 false 1.0) =
  Demand.calculate_demand (Features 0.8 45 3 false 1.0).
Proof.
  apply (queue_saturates Scenario.f0 20 45); lia.
Defined.

(** * Further properties of the competitive model *)

Lemma sum_squares_zero (a b : R) : a ^ 2 + b ^ 2 = 0 → a = 0 ∧ b = 0.
Proof. rewrite <- !Rsqr_pow2. apply Rplus_sqr_eq_0. Qed.

Lemma distance_facts (lat1 lon1 lat2 lon2 : R) :
  Competitive.calculate_distance lat1 lon1 lat2 lon2 =
    Competitive.calculate_distance lat2 lon2 lat1 lon1 ∧
  0 <= Competitive.calculate_distance lat1 lon1 lat2 lon2 ∧
  (Competitive.calculate_distance lat1 lon1 lat2 lon2 = 0 ↔
   lat1 = lat2 ∧ lon1 = lon2).
Proof.
  unfold Competitive.calculate_distance. split; [|split].
  - f_equal. ring.
  - apply sqrt_pos.
  - split.
    + intros H. apply sqrt_eq_0 in H.
      * apply sum_squares_zero in H as [? ?]. lra.
      * pose proof (pow2_ge_0 (lat1 - lat2)). pose proof (pow2_ge_0 (lon1 - lon2)). lra.
    + intros [-> ->].
      replace ((lat2 - lat2) ^ 2 + (lon2 - lon2) ^ 2) with 0 by ring.
      apply sqrt_0.
Qed.

(** X11. [calculate_distance] is a distance on the plane: symmetric, never
    negative, and zero exactly between a point and itself. *)
Theorem calculate_distance_metric (lat1 lon1 lat2 lon2 : R) :
  Competitive.calculate_distance lat1 lon1 lat2 lon2 =
    Competitive.calculate_distance lat2 lon2 lat1 lon1 ∧
  0 <= Competitive.calculate_distance lat1 lon1 lat2 lon2 ∧
  (Competitive.calculate_distance lat1 lon1 lat2 lon2 = 0 ↔
   lat1 = lat2 ∧ lon1 = lon2).
Proof. exact (distance_facts lat1 lon1 lat2 lon2). Qed.

Lemma apart_sym (a b : Competitive.location) :
  Competitive.apart a b = Competitive.apart b a.
Proof. unfold Competitive.apart. apply distance_facts. Qed.

Lemma lookup_location_NoDup (x : Z) (loc : Competitive.location)
    (d : list (Z * Competitive.location)) :
  NoDup d.*1 → (x, loc) ∈ d → Competitive.lookup_location x d = Some loc.
Proof.
  induction d as [|[y l] d IH]; cbn; intros Hnd Hin.
  - by apply elem_of_nil in Hin.
  - apply NoDup_cons in Hnd as [Hy Hnd].
    apply elem_of_cons in Hin as [[= -> ->]|Hin].
    + by rewrite decide_True.
    + destruct (decide (y = x)) as [->|Hne]; [|by apply IH].
      destruct Hy. apply list_elem_of_fmap. by exists (x, loc).
Qed.

(** X12. Being a competitor is mutual.  When the keys of [locations] are
    distinct, as in a dictionary, unit [y] is listed for [x] at some
    distance exactly when [x] is listed for [y] at the same distance. *)
Theorem competitors_mutual (m : Competitive.model) (x y : Z) (d : R) :
  NoDup (Competitive.locations m).*1 →
  (∃ c, c ∈ Competitive.find_competitors m x ∧
        Competitive.space_id c = y ∧ Competitive.distance c = d) →
  ∃ c, c ∈ Competitive.find_competitors m y ∧
       Competitive.space_id c = x ∧ Competitive.distance c = d.
Proof.
  intros Hnd (c & Hc & Hy & Hd).
  destruct (Competitive.lookup_location x (Competitive.locations m)) as [cur|] eqn:Hx.
  - apply (elem_of_find_competitors m x cur c Hx) in Hc
      as (y' & loc & Hin & Hne & Hle & ->). cbn in Hy, Hd. subst y' d.
    pose proof (lookup_location_NoDup y loc _ Hnd Hin) as Hly.
    exists (Competitive.Competitor x (Competitive.apart loc cur)
              (Competitive.get_current_price m x)).
    split; [|split; [done|cbn; apply apart_sym]].
    apply (elem_of_find_competitors m y loc _ Hly).
    exists x, cur. split; [by apply lookup_location_elem|].
    split; [done|]. split; [by rewrite apart_sym|done].
  - unfold Competitive.find_competitors in Hc. rewrite Hx in Hc.
    by apply elem_of_nil in Hc.
Qed.

Lemma competitors_mutual_witness :
  ∃ c, c ∈ Competitive.find_competitors Scenario.m2 2 ∧
       Competitive.space_id c = 1%Z ∧ Competitive.distance c = 0.001.
Proof.
  apply (competitors_mutual Scenario.m2 1 2 0.001).
  - cbn. apply NoDup_cons. split; [|apply NoDup_singleton].
    intros Hin. apply elem_of_cons in Hin as [?|Hin]; [done|by apply elem_of_nil in Hin].
  - exists (Competitive.Competitor 2 0.001 10.0). rewrite two_units_competitors.
    split; [apply list_elem_of_here|done].
Defined.

(** X13. What [suggest_rerouting] may return.  Every suggestion is for
    another unit, one within the radius (at most 0.555 km away), it carries
    that unit's current price, which is at most 1.1 times the price of the
    full unit, so the reported saving is never below a tenth of that price
    in the negative, and it is only made when the unit is full. *)
Theorem suggestion_sound (m : Competitive.model) (x : Z) (occ cap : Z)
    (e : Competitive.suggestion) :
  e ∈ Competitive.suggest_rerouting m x occ cap →
  (occ >= cap)%Z ∧
  Competitive.sug_space_id e ≠ x ∧
  0 <= Competitive.distance_km e <= 0.555 ∧
  Competitive.sug_price e = Competitive.get_current_price m (Competitive.sug_space_id e) ∧
  Competitive.sug_price e <= Competitive.get_current_price m x * 1.1 ∧
  Competitive.savings e = Competitive.get_current_price m x - Competitive.sug_price e ∧
  - (0.1 * Competitive.get_current_price m x) <= Competitive.savings e.
Proof.
  unfold Competitive.suggest_rerouting.
  destruct (decide (occ < cap)%Z) as [|Hfull]; [by intros ?%elem_of_nil|].
  unfold Py.slice_to. rewrite suggestions_filter. intros He.
  apply subseteq_take, list_elem_of_fmap in He as (c & -> & Hc).
  apply list_elem_of_filter in Hc as [Hq Hc]. unfold qualifies in Hq.
  fold (Ledger.get_current_price (Competitive.base_price m) (Competitive.prices m) x) in *.
  fold (Competitive.get_current_price m x) in *.
  split; [lia|].
  destruct (Competitive.lookup_location x (Competitive.locations m)) as [cur|] eqn:Hx.
  - destruct (proj1 (elem_of_find_competitors m x cur c Hx) Hc)
      as (y & loc & Hin & Hne & Hle & Hceq).
    rewrite Hceq in *. cbn in *.
    assert (0 <= Competitive.apart cur loc) as Hpos
      by (unfold Competitive.apart; apply distance_facts).
    unfold Competitive.competition_radius in Hle.
    repeat split; try done; lra.
  - unfold Competitive.find_competitors in Hc. rewrite Hx in Hc.
    by apply elem_of_nil in Hc.
Qed.

Lemma suggestion_sound_witness :
  Competitive.sug_space_id (Competitive.Suggestion 2 (0.001 * 111) 10.0 (10.0 - 10.0)) ≠ 1%Z ∧
  0 <= 0.001 * 111 <= 0.555.
Proof.
  destruct (suggestion_sound Scenario.m2 1 50 50
              (Competitive.Suggestion 2 (0.001 * 111) 10.0 (10.0 - 10.0)))
    as (_ & Hne & Hd & _).
  - rewrite two_units_rerouting. apply list_elem_of_here.
  - split; [exact Hne|exact Hd].
Defined.

Lemma scan_ids_sublist (m : Competitive.model) (x : Z) (cur : Competitive.location)
    (its : list (Z * Competitive.location)) :
  Competitive.space_id <$> omap (Competitive.candidate m x cur) its `sublist_of` its.*1.
Proof.
  induction its as [|[y loc] its IH]; [done|].
  cbn [omap list_omap]. rewrite fmap_cons. cbn [fst].
  destruct (Competitive.candidate m x cur (y, loc)) as [c|] eqn:E.
  - apply candidate_Some in E as (_ & _ & ->). cbn. by apply sublist_skip.
  - by apply sublist_cons.
Qed.

(** X14. Ties are broken by the order of the [locations] dictionary: the
    ids of the competitors found at one and the same distance come in the
    order in which the dictionary lists them. *)
Theorem ties_keep_dictionary_order (m : Competitive.model) (x : Z) (d : R) :
  Competitive.space_id <$>
    filter (λ c, Competitive.distance c = d) (Competitive.find_competitors m x)
  `sublist_of` (Competitive.locations m).*1.
Proof.
  unfold Competitive.find_competitors.
  destruct (Competitive.lookup_location x (Competitive.locations m)) as [cur|].
  - rewrite sorted_by_distance_stable.
    etrans; [|apply (scan_ids_sublist m x cur)].
    apply fmap_sublist, sublist_filter.
  - apply sublist_nil_l.
Qed.

Lemma sum_bounds (lo hi : R) (l : list R) :
  Forall (λ p, lo <= p <= hi) l →
  INR (length l) * lo <= Py.sum l <= INR (length l) * hi.
Proof.
  induction 1 as [|p l Hp _ IH].
  - cbn. lra.
  - change (length (p :: l)) with (S (length l)). rewrite S_INR.
    change (Py.sum (p :: l)) with (p + Py.sum l). lra.
Qed.

Lemma mean_bounds (lo hi : R) (l : list R) :
  l ≠ [] → Forall (λ p, lo <= p <= hi) l → lo <= Py.mean l <= hi.
Proof.
  intros Hne Hall. pose proof (sum_bounds lo hi l Hall) as Hs.
  assert (0 < INR (length l)) as Hn.
  { apply lt_0_INR. destruct l; [done|cbn; lia]. }
  unfold Py.mean.
  assert (Py.sum l / INR (length l) * INR (length l) = Py.sum l) as Hdiv
    by (field; lra).
  split; nra.
Qed.

(** X15. With a positive base price and every stored price within the
    bounds, the competitive adjustment lies between [-0.15] and [0.6],
    whatever the unit, its neighbours and its occupancy. *)
Theorem adjustment_range (m : Competitive.model) (x : Z) (occ cap : Z) :
  0 < Competitive.base_price m →
  bounded (Competitive.base_price m) (Competitive.prices m) →
  -0.15 <= Competitive.calculate_competitive_adjustment m x occ cap <= 0.6.
Proof.
  intros Hb Hbd.
  set (b := Competitive.base_price m) in *.
  assert (∀ y, within_bounds b (Competitive.get_current_price m y)) as Hget.
  { intros y. apply (bounded_getters (CompetitiveS m) y); [cbn; fold b; lra|done]. }
  unfold Competitive.calculate_competitive_adjustment.
  destruct (Competitive.find_competitors m x) as [|c cs] eqn:E; [lra|].
  assert (within_bounds b (Py.mean (Competitive.price <$> c :: cs))) as Havg.
  { apply mean_bounds; [done|]. apply Forall_fmap, Forall_forall. intros c' Hc'.
    rewrite <- E in Hc'.
    destruct (Competitive.lookup_location x (Competitive.locations m)) as [cur|] eqn:Hx.
    - destruct (proj1 (elem_of_find_competitors m x cur c' Hx) Hc')
        as (y & loc & _ & _ & _ & ->).
      apply Hget.
    - unfold Competitive.find_competitors in Hc'. rewrite Hx in Hc'.
      by apply elem_of_nil in Hc'. }
  pose proof (Hget x) as Hcur.
  unfold Competitive.get_current_price, get_current_price in Hcur. fold b.
  set (avg := Py.mean (Competitive.price <$> c :: cs)) in *.
  set (cur := Py.get (current_prices (Competitive.prices m)) x b) in *.
  unfold within_bounds in *.
  change (b * 0.5 <= cur <= b * 2.0) in Hcur.
  destruct (decide (occ >= cap)%Z).
  - destruct (Rlt_dec avg cur); lra.
  - assert (0 < cur) by lra.
    assert (avg / cur * cur = avg) as Hdiv by (field; lra).
    assert (0.25 <= avg / cur <= 4) as Hratio by (split; nra).
    lra.
Qed.

Lemma adjustment_range_witness :
  -0.15 <= Competitive.calculate_competitive_adjustment Scenario.m2 1 40 50 <= 0.6.
Proof.
  apply (adjustment_range Scenario.m2 1 40 50).
  - cbn; lra.
  - apply bounded_initialize; [cbn; lra|apply bounded_empty].
Defined.

(** * The ingestion columns *)

Lemma dict_get_value {V} (d : list (string * V)) (k : string) (v : V) :
  DataProcessor.dict_get d k = Some v → v ∈ d.*2.
Proof.
  induction d as [|[k' v'] d IH]; cbn; [done|].
  destruct (decide (k' = k)).
  - intros [= ->]. apply list_elem_of_here.
  - intros H. apply list_elem_of_further, IH, H.
Qed.

Lemma vehicle_type_values (raw : option string) :
  DataProcessor.vehicle_type raw = "car"%string ∨
  DataProcessor.vehicle_type raw = "bike"%string ∨
  DataProcessor.vehicle_type raw = "truck"%string.
Proof.
  unfold DataProcessor.vehicle_type, DataProcessor.series_map, DataProcessor.fillna.
  destruct raw as [k|]; [|by left].
  destruct (DataProcessor.dict_get _ k) as [v|] eqn:E; [|by left].
  apply dict_get_value in E. cbn in E.
  repeat (apply elem_of_cons in E as [->|E]; [by eauto|]).
  by apply elem_of_nil in E.
Qed.

Lemma vehicle_weight_facts (raw : option string) :
  (∃ w, DataProcessor.vehicle_weight raw = Some w ∧
        (w = 1.0 ∨ w = 0.5 ∨ w = 1.5) ∧ 0 < w) ∧
  (DataProcessor.series_map DataProcessor.vehicle_type_mapping raw = None →
   DataProcessor.vehicle_weight raw = Some 1.0).
Proof.
  split.
  - unfold DataProcessor.vehicle_weight.
    destruct (vehicle_type_values raw) as [->| [->| ->]].
    + exists 1.0. split; [done|]. split; [by left|lra].
    + exists 0.5. split; [done|]. split; [by right; left|lra].
    + exists 1.5. split; [done|]. split; [by right; right|lra].
  - intros Hnone. unfold DataProcessor.vehicle_weight, DataProcessor.vehicle_type.
    by rewrite Hnone.
Qed.

(** X16. Every vehicle type gets a weight, and a positive one: 1.0, 0.5 or
    1.5.  A missing type, or one the mapping does not know, is weighed as a
    car. *)
Theorem vehicle_weight_total (raw : option string) :
  (∃ w, DataProcessor.vehicle_weight raw = Some w ∧
        (w = 1.0 ∨ w = 0.5 ∨ w = 1.5) ∧ 0 < w) ∧
  (DataProcessor.series_map DataProcessor.vehicle_type_mapping raw = None →
   DataProcessor.vehicle_weight raw = Some 1.0).
Proof. exact (vehicle_weight_facts raw). Qed.

Lemma vehicle_weight_total_witness :
  DataProcessor.vehicle_weight (Some "Tractor"%string) = Some 1.0.
Proof.
  apply (proj2 (vehicle_weight_total (Some "Tractor"%string))). reflexivity.
Defined.

Lemma traffic_text_values (cell : option string) :
  DataProcessor.fillna 5%Z
    (DataProcessor.series_map DataProcessor.traffic_mapping cell)
  ∈ [1; 2; 5; 6; 9; 10]%Z.
Proof.
  unfold DataProcessor.series_map, DataProcessor.fillna.
  destruct cell as [k|]; [|set_solver].
  destruct (DataProcessor.dict_get _ k) as [v|] eqn:E; [|set_solver].
  apply dict_get_value in E. cbn in E.
  repeat (apply elem_of_cons in E as [->|E]; [set_solver|]).
  by apply elem_of_nil in E.
Qed.

Lemma np_clip_bounds (x : Z) : (1 <= DataProcessor.np_clip x 1 10 <= 10)%Z.
Proof. unfold DataProcessor.np_clip. lia. Qed.

Lemma np_clip_id (x : Z) : (1 <= x <= 10)%Z → DataProcessor.np_clip x 1 10 = x.
Proof. unfold DataProcessor.np_clip. lia. Qed.

Lemma traffic_level_facts (c : DataProcessor.traffic_column) :
  Forall (λ t, (1 <= t <= 10)%Z) (DataProcessor.traffic_level c) ∧
  (∀ cells, c = DataProcessor.ObjectColumn cells →
     DataProcessor.traffic_level c =
       (λ cell, DataProcessor.fillna 5%Z
                  (DataProcessor.series_map DataProcessor.traffic_mapping cell)) <$> cells) ∧
  (∀ cells, c = DataProcessor.IntColumn cells →
     length (DataProcessor.traffic_level c) = length cells ∧
     (Forall (λ t, (1 <= t <= 10)%Z) cells → DataProcessor.traffic_level c = cells)).
Proof.
  split; [|split].
  - unfold DataProcessor.traffic_level. apply Forall_fmap, Forall_forall.
    intros v _. apply np_clip_bounds.
  - intros cells ->. unfold DataProcessor.traffic_level.
    rewrite <- list_fmap_compose. apply list_fmap_ext. intros _ cell _. cbn.
    apply np_clip_id.
    pose proof (traffic_text_values cell) as Hv.
    repeat (apply elem_of_cons in Hv as [->|Hv]; [lia|]).
    by apply elem_of_nil in Hv.
  - intros cells ->. unfold DataProcessor.traffic_level. split.
    + apply length_fmap.
    + intros Hall. induction Hall as [|v cells Hv _ IH]; [done|].
      rewrite fmap_cons, IH. f_equal. by apply np_clip_id.
Qed.

Lemma traffic_word_level (w : string) :
  DataProcessor.fillna 5%Z (DataProcessor.dict_get DataProcessor.traffic_mapping w) =
  Formulas.word_level w.
Proof.
  unfold DataProcessor.traffic_mapping. cbn [DataProcessor.dict_get].
  repeat (case_decide; [subst w; vm_compute; reflexivity|]).
  cbn [DataProcessor.fillna]. unfold Formulas.word_level.
  rewrite !bool_decide_eq_false_2; [done|..];
    intros Hin;
    repeat (apply elem_of_cons in Hin as [Hin|Hin]; [congruence|]);
    by apply elem_of_nil in Hin.
Qed.

Lemma np_clip_clipped (v : Z) : DataProcessor.np_clip v 1 10 = Formulas.clipped v.
Proof.
  unfold DataProcessor.np_clip, Formulas.clipped.
  destruct (decide (v < 1)%Z); [lia|]. destruct (decide (10 < v)%Z); lia.
Qed.

(** X17. The preprocessed traffic column has a level for every row and
    every level is between 1 and 10.  In a text column the clip changes
    nothing: a known word gets its mapped level and anything else 5.  In an
    integer column each level is clipped on its own: a level already
    between 1 and 10 is kept, a lower one becomes 1 and a higher one 10,
    whatever the other rows hold. *)
Theorem traffic_level_range (c : DataProcessor.traffic_column) :
  Forall (λ t, (1 <= t <= 10)%Z) (DataProcessor.traffic_level c) ∧
  (∀ cells, c = DataProcessor.ObjectColumn cells →
     DataProcessor.traffic_level c =
       (λ cell, DataProcessor.fillna 5%Z
                  (DataProcessor.series_map DataProcessor.traffic_mapping cell)) <$> cells) ∧
  (∀ cells, c = DataProcessor.IntColumn cells →
     length (DataProcessor.traffic_level c) = length cells ∧
     (Forall (λ t, (1 <= t <= 10)%Z) cells → DataProcessor.traffic_level c = cells)) ∧
  (∀ cells i v, c = DataProcessor.IntColumn cells →
     cells !! i = Some v →
     DataProcessor.traffic_level c !! i = Some (Formulas.clipped v) ∧
     ((1 <= v <= 10)%Z → DataProcessor.traffic_level c !! i = Some v)) ∧
  (∀ cells i cell, c = DataProcessor.ObjectColumn cells →
     cells !! i = Some cell →
     DataProcessor.traffic_level c !! i =
       Some (match cell with Some w => Formulas.word_level w | None => 5%Z end)).
Proof.
  destruct (traffic_level_facts c) as (Hall & Hobj & Hint).
  split; [exact Hall|]. split; [exact Hobj|]. split; [exact Hint|]. split.
  - intros cells i v -> Hv. unfold DataProcessor.traffic_level.
    rewrite list_lookup_fmap, Hv. cbn. rewrite np_clip_clipped.
    split; [done|]. intros Hr. unfold Formulas.clipped.
    rewrite !decide_False by lia. done.
  - intros cells i cell -> Hcell. rewrite (Hobj cells eq_refl).
    rewrite list_lookup_fmap, Hcell. cbn. f_equal.
    destruct cell as [w|]; [apply traffic_word_level|done].
Qed.

Lemma traffic_level_range_witness :
  DataProcessor.traffic_level (DataProcessor.IntColumn [3; 15]%Z) !! 0%nat = Some 3%Z.
Proof.
  refine (proj2 (proj1 (proj2 (proj2 (proj2 (traffic_level_range
            (DataProcessor.IntColumn [3; 15]%Z)))))
            [3; 15]%Z 0%nat 3%Z eq_refl eq_refl) _).
  lia.
Defined.

(** X18. What [preprocess_data] hands to the models is within the ranges
    they assume: for a row with [0 <= occupancy <= capacity],
    [capacity > 0] and a non-negative queue, the occupancy rate, any level
    of the preprocessed traffic column and the weight of any vehicle type
    form a valid feature record; on such a row the unit is full exactly when
    its occupancy rate is 1. *)
Theorem preprocessed_row_valid (occ cap q : Z) (c : DataProcessor.traffic_column)
    (i : nat) (t : Z) (sp : bool) (raw_type : option string) :
  (0 <= occ <= cap)%Z →
  (0 < cap)%Z →
  (0 <= q)%Z →
  DataProcessor.traffic_level c !! i = Some t →
  ∃ w, DataProcessor.vehicle_weight raw_type = Some w ∧
       valid_features (Features (DataProcessor.occupancy_rate occ cap) q t sp w) ∧
       ((occ >= cap)%Z ↔ DataProcessor.occupancy_rate occ cap = 1).
Proof.
  intros [Ho1 Ho2] Hcap Hq Ht.
  destruct (proj1 (vehicle_weight_facts raw_type)) as (w & Hw & _ & Hpos).
  exists w. split; [exact Hw|].
  assert (1 <= t <= 10)%Z as Htr.
  { destruct (traffic_level_facts c) as [Hall _].
    eapply Forall_forall in Hall; [exact Hall|].
    by eapply list_elem_of_lookup_2. }
  apply IZR_le in Ho1 as Ho1'. apply IZR_le in Ho2 as Ho2'.
  apply IZR_lt in Hcap as Hcap'.
  assert (IZR occ / IZR cap * IZR cap = IZR occ) as Hdiv by (field; lra).
  unfold DataProcessor.occupancy_rate. split.
  - unfold valid_features. cbn. split; [split; nra|]. done.
  - split.
    + intros Hfull. assert (occ = cap) as -> by lia. field. lra.
    + intros Hone. rewrite Hone, Rmult_1_l in Hdiv. apply eq_IZR in Hdiv. lia.
Qed.

Lemma preprocessed_row_valid_witness :
  ∃ w, DataProcessor.vehicle_weight (Some "Bus"%string) = Some w ∧
       valid_features (Features (DataProcessor.occupancy_rate 40 50) 5 10 false w) ∧
       ((40 >= 50)%Z ↔ DataProcessor.occupancy_rate 40 50 = 1).
Proof.
  apply (preprocessed_row_valid 40 50 5
           (DataProcessor.ObjectColumn [Some "High"%string]) 0 10 false
           (Some "Bus"%string)); try lia.
  reflexivity.
Defined.

(** X19. The conversion to 0-based ids happens only when the smallest id
    is exactly 1: then every id is lowered by one, so none is negative and 0
    occurs; when 1 is no id, or some id is below 1, the column is returned
    as it is.  The number of rows never changes. *)
Theorem space_id_rebase (ids : list Z) :
  length (DataProcessor.space_id ids) = length ids ∧
  ((∀ x, x ∈ ids → (1 <= x)%Z) → 1%Z ∈ ids →
   DataProcessor.space_id ids = (λ i, (i - 1)%Z) <$> ids ∧
   Forall (λ i, (0 <= i)%Z) (DataProcessor.space_id ids) ∧
   0%Z ∈ DataProcessor.space_id ids) ∧
  (1%Z ∉ ids ∨ (∃ x, x ∈ ids ∧ (x < 1)%Z) → DataProcessor.space_id ids = ids).
Proof.
  assert (∀ x rest, foldr Z.min x rest ∈ x :: rest ∧
                    Forall (λ y, (foldr Z.min x rest <= y)%Z) (x :: rest)) as Hmin.
  { intros x rest. induction rest as [|y rest [IHin IHle]]; cbn.
    - split; [apply list_elem_of_here|]. repeat constructor. lia.
    - apply Forall_cons in IHle as [Hx Hrest]. split.
      + destruct (Z.min_spec y (foldr Z.min x rest)) as [[_ ->]|[_ ->]].
        * apply list_elem_of_further, list_elem_of_here.
        * apply elem_of_cons in IHin as [->|Hin]; [apply list_elem_of_here|].
          by do 2 apply list_elem_of_further.
      + constructor; [lia|]. constructor; [lia|].
        eapply Forall_impl; [exact Hrest|]. intros z Hz. cbn in Hz. lia. }
  destruct ids as [|x rest]; [split; [done|]; split; [by intros _ ?%elem_of_nil|done]|].
  destruct (Hmin x rest) as [Hin Hle].
  unfold DataProcessor.space_id. split; [|split].
  - destruct (decide _); [apply length_fmap|done].
  - intros Hpos Hone.
    assert (foldr Z.min x rest = 1%Z) as Hm.
    { eapply Forall_forall in Hle; [|exact Hone]. cbn in Hle.
      pose proof (Hpos _ Hin). lia. }
    rewrite decide_True by done. split; [done|]. split.
    + apply Forall_fmap, Forall_forall. intros y Hy. cbn.
      pose proof (Hpos y Hy). lia.
    + apply list_elem_of_fmap. by exists 1%Z.
  - intros Hcase. rewrite decide_False; [done|].
    intros Hm. destruct Hcase as [Hnone|(y & Hy & Hlt)].
    + apply Hnone. by rewrite <- Hm.
    + eapply Forall_forall in Hle; [|exact Hy]. cbn in Hle. lia.
Qed.

Lemma space_id_rebase_witness :
  DataProcessor.space_id [3; 1; 2]%Z = (λ i, (i - 1)%Z) <$> [3; 1; 2]%Z.
Proof.
  refine (proj1 (proj1 (proj2 (space_id_rebase [3; 1; 2]%Z)) _ _)).
  - intros x Hx. repeat (apply elem_of_cons in Hx as [->|Hx]; [lia|]).
    by apply elem_of_nil in Hx.
  - apply list_elem_of_further, list_elem_of_here.
Defined.

(** * The pricing system *)

Import SystemProps.

Lemma elem_of_space_ids (dataset : list dataset_row) (x : Z) :
  x ∈ System.space_ids dataset ↔ ∃ r, r ∈ dataset ∧ row_space_id r = x.
Proof.
  unfold System.space_ids.
  rewrite merge_sort_Permutation, elem_of_remove_dups, list_elem_of_fmap.
  split; intros (r & H1 & H2); exists r; done.
Qed.


Lemma first_row_Some (dataset : list dataset_row) (x : Z) :
  x ∈ System.space_ids dataset →
  ∃ i r, System.first_row x dataset = Some r ∧
         dataset !! i = Some r ∧ row_space_id r = x ∧
         ∀ j r', dataset !! j = Some r' → (j < i)%nat → row_space_id r' ≠ x.
Proof.
  intros (r0 & Hin & Hx)%elem_of_space_ids.
  destruct (list_find_elem_of (λ r, row_space_id r = x) dataset r0 Hin Hx) as [[i r] Hfind].
  exists i, r. unfold System.first_row. rewrite Hfind. split; [done|].
  by apply list_find_Some in Hfind.
Qed.

Lemma locations_dict_Some (dataset : list dataset_row) :
  ∃ locs, System.locations_dict dataset = Some locs ∧
          locs.*1 = System.space_ids dataset ∧
          ∀ x loc, (x, loc) ∈ locs →
            ∃ r, System.first_row x dataset = Some r ∧
                 loc = Competitive.Location (row_latitude r) (row_longitude r).
Proof.
  unfold System.locations_dict.
  assert (∀ ids, (∀ x, x ∈ ids → x ∈ System.space_ids dataset) →
    ∃ locs,
      mapM (λ x, space_data ← System.first_row x dataset;
                 Some (x, Competitive.Location (row_latitude space_data)
                                               (row_longitude space_data))) ids
        = Some locs ∧
      locs.*1 = ids ∧
      ∀ x loc, (x, loc) ∈ locs →
        ∃ r, System.first_row x dataset = Some r ∧
             loc = Competitive.Location (row_latitude r) (row_longitude r)) as Hgen.
  { induction ids as [|x ids IH]; intros Hsub.
    - exists []. split; [done|]. split; [done|]. by intros ? ? ?%elem_of_nil.
    - destruct IH as (locs & Hm & Hk & Hl).
      { intros y Hy. by apply Hsub, list_elem_of_further. }
      destruct (first_row_Some dataset x) as (i & r & Hr & _).
      { apply Hsub, list_elem_of_here. }
      exists ((x, Competitive.Location (row_latitude r) (row_longitude r)) :: locs).
      split; [|split].
      + cbn. rewrite Hr. cbn. rewrite Hm. done.
      + cbn. by rewrite Hk.
      + intros y loc [[= -> ->]|Hin]%elem_of_cons; [by exists r|by apply Hl]. }
  by apply Hgen.
Qed.



Lemma system_price_bounds (v : R) :
  System.min_allowed <= Py.max (System.base_price * 0.5)
                          (Py.min v (System.base_price * 2.0)) <= System.max_allowed.
Proof.
  unfold System.min_allowed, System.max_allowed.
  apply clamp_bounds. unfold System.base_price. lra.
Qed.

Lemma getter_after_update (b : R) (l' : ledger) (x : Z) (p : R) :
  current_prices l' !! x = Some p → Ledger.get_current_price b l' x = p.
Proof. intros H. unfold get_current_price, Py.get. by rewrite H. Qed.

(** One row of the simulation on well-formed, configured models. *)
Lemma process_row_ok (sys : system) (r : dataset_row) :
  ledgers_ok sys →
  configured sys →
  ∃ pr sys', System.process_row sys r = (Some pr, sys') ∧
    ledgers_ok sys' ∧ configured sys' ∧
    Competitive.locations (competitive sys') = Competitive.locations (competitive sys) ∧
    echoes pr r ∧
    System.min_allowed <= baseline_price pr <= System.max_allowed ∧
    System.min_allowed <= demand_price pr <= System.max_allowed ∧
    System.min_allowed <= competitive_price pr <= System.max_allowed ∧
    recorded sys' pr.
Proof.
  intros (Hb & Hd & Hc) (Cb & Cd & Cc).
  destruct (update_price_total (BaselineS (baseline sys)) (row_space_id r) (row_data r) Hb)
    as (lb & Hub & Hokb & Hcb & _).
  destruct (update_price_total (DemandS (demand sys)) (row_space_id r) (row_data r) Hd)
    as (ld & Hud & Hokd & Hcd & _).
  destruct (update_price_total (CompetitiveS (competitive sys)) (row_space_id r)
              (row_data r) Hc) as (lc & Huc & Hokc & Hcc & _).
  cbn in Hub, Hud, Huc, Hcb, Hcd, Hcc.
  unfold System.process_row.
  destruct (Baseline.update_price (baseline sys) (row_space_id r) _)
    as [[bp b']|]; [|done].
  destruct (Demand.update_price (demand sys) (row_space_id r) _) as [[dp d']|]; [|done].
  destruct (Competitive.update_price (competitive sys) (row_space_id r) _ _ _)
    as [[cp c']|]; [|done].
  cbn in Hub, Hud, Huc.
  injection Hub as Hbp Hb'. injection Hud as Hdp Hd'. injection Huc as Hcp Hc'.
  eexists _, _. split; [reflexivity|]. subst b' d' c'. cbn.
  split; [done|]. split; [done|]. split; [done|]. split; [done|].
  split; [|split; [|split]].
  - subst bp. unfold Baseline.next_price. rewrite Cb. apply system_price_bounds.
  - subst dp. unfold Demand.next_price. rewrite Cd. apply system_price_bounds.
  - subst cp. rewrite Cc. apply system_price_bounds.
  - unfold recorded, Baseline.get_current_price, Demand.get_current_price,
      Competitive.get_current_price. cbn.
    rewrite (getter_after_update _ lb _ _ Hcb), (getter_after_update _ ld _ _ Hcd),
      (getter_after_update _ lc _ _ Hcc). subst bp dp cp. done.
Qed.

(** X21. On models with well-formed ledgers and the system's base price,
    one row of the simulation loop raises nothing: it yields a result for
    the row's unit whose three prices lie within [[5, 20]] and are the
    current prices the three models hold for that unit afterwards. *)
Theorem process_row_spec (sys : system) (r : dataset_row) :
  ledgers_ok sys →
  configured sys →
  ∃ pr sys', System.process_row sys r = (Some pr, sys') ∧
    pr_space_id pr = row_space_id r ∧
    5 <= baseline_price pr <= 20 ∧
    5 <= demand_price pr <= 20 ∧
    5 <= competitive_price pr <= 20 ∧
    recorded sys' pr ∧
    ledgers_ok sys' ∧ configured sys'.
Proof.
  intros Hok Hcf.
  destruct (process_row_ok sys r Hok Hcf)
    as (pr & sys' & Hp & Hok' & Hcf' & _ & (Hid & _) & Hb & Hd & Hc & Hrec).
  exists pr, sys'. unfold System.min_allowed, System.max_allowed, System.base_price in Hb, Hd, Hc.
  split; [done|]. split; [done|]. split; [lra|]. split; [lra|]. split; [lra|]. done.
Qed.

Lemma process_row_spec_witness :
  ∃ pr sys', System.process_row System.new (DatasetRow 1 0 0 Scenario.row0)
               = (Some pr, sys') ∧
             pr_space_id pr = 1%Z ∧ 5 <= baseline_price pr <= 20.
Proof.
  destruct (process_row_spec System.new (DatasetRow 1 0 0 Scenario.row0))
    as (pr & sys' & Hp & Hid & Hb & _).
  - repeat split; apply ok_empty.
  - done.
  - exists pr, sys'. done.
Defined.

Lemma simulate_ok (rows : list dataset_row) : ∀ sys,
  ledgers_ok sys →
  configured sys →
  ∃ results sys', System.simulate sys rows = (results, sys') ∧
    ledgers_ok sys' ∧ configured sys' ∧
    Competitive.locations (competitive sys') = Competitive.locations (competitive sys) ∧
    Forall2 echoes results rows ∧
    Forall (λ pr, System.min_allowed <= baseline_price pr <= System.max_allowed ∧
                  System.min_allowed <= demand_price pr <= System.max_allowed ∧
                  System.min_allowed <= competitive_price pr <= System.max_allowed)
           results.
Proof.
  induction rows as [|r rows IH]; intros sys Hok Hcf.
  - exists [], sys. split; [done|]. split; [done|]. split; [done|]. split; [done|].
    split; constructor.
  - destruct (process_row_ok sys r Hok Hcf)
      as (pr & sys1 & Hp & Hok1 & Hcf1 & Hl1 & Hecho & Hb & Hd & Hc & _).
    destruct (IH sys1 Hok1 Hcf1) as (results & sys' & Hs & Hok' & Hcf' & Hl' & Hechoes & Hall).
    exists (pr :: results), sys'. cbn [System.simulate]. rewrite Hp, Hs.
    split; [done|]. split; [done|]. split; [done|]. split; [congruence|].
    split; [by constructor|].
    by constructor.
Qed.

Lemma violations_none (col : list R) :
  Forall (λ p, System.min_allowed <= p <= System.max_allowed) col →
  System.violations col = 0%nat ∧ System.within_bounds col = true.
Proof.
  intros Hall. unfold System.violations, System.within_bounds. split.
  - induction Hall as [|p col Hp _ IH]; [done|].
    rewrite filter_cons, decide_False; [exact IH|]. intros [?|?]; lra.
  - apply forallb_forall. intros p Hp%list_elem_of_In.
    eapply Forall_forall in Hall; [|exact Hp]. cbn in Hall.
    apply andb_true_iff. split; apply bool_decide_eq_true; lra.
Qed.

(** X22. [run_demo_simulation] on models with well-formed ledgers and the
    system's base price catches no exception: it yields one result for each
    of the first [min(500, len(dataset))] rows, in their order, with the
    unit and the features of its row, and nothing when the dataset is empty.  The bounds
    validation of [display_summary] finds all three price columns within
    bounds, with 0 violations.  The ledgers stay well formed and the
    locations unchanged. *)
Theorem run_demo_simulation_spec (sys : system) (dataset : list dataset_row) :
  ledgers_ok sys →
  configured sys →
  ∃ results sys',
    System.run_demo_simulation sys dataset =
      (match results with [] => None | _ :: _ => Some results end, sys') ∧
    length results = Nat.min 500 (length dataset) ∧
    Forall2 echoes results (take 500 dataset) ∧
    System.violations (baseline_price <$> results) = 0%nat ∧
    System.violations (demand_price <$> results) = 0%nat ∧
    System.violations (competitive_price <$> results) = 0%nat ∧
    System.within_bounds (baseline_price <$> results) = true ∧
    System.within_bounds (demand_price <$> results) = true ∧
    System.within_bounds (competitive_price <$> results) = true ∧
    ledgers_ok sys' ∧ configured sys' ∧
    Competitive.locations (competitive sys') = Competitive.locations (competitive sys).
Proof.
  intros Hok Hcf.
  assert (take (Nat.min 500 (length dataset)) dataset = take 500 dataset) as Htake.
  { destruct (decide (500 <= length dataset)%nat).
    - by rewrite Nat.min_l.
    - rewrite Nat.min_r by lia. rewrite !take_ge by lia. done. }
  destruct (simulate_ok (take 500 dataset) sys Hok Hcf)
    as (results & sys' & Hs & Hok' & Hcf' & Hl & Hechoes & Hall).
  exists results, sys'. unfold System.run_demo_simulation. rewrite Htake, Hs.
  split; [done|].
  split.
  { rewrite (Forall2_length _ _ _ Hechoes), length_take. done. }
  split; [done|].
  assert (Forall (λ p, System.min_allowed <= p <= System.max_allowed)
            (baseline_price <$> results)) as Hb.
  { apply Forall_fmap. eapply Forall_impl; [exact Hall|]. by intros pr (? & _ & _). }
  assert (Forall (λ p, System.min_allowed <= p <= System.max_allowed)
            (demand_price <$> results)) as Hd.
  { apply Forall_fmap. eapply Forall_impl; [exact Hall|]. by intros pr (_ & ? & _). }
  assert (Forall (λ p, System.min_allowed <= p <= System.max_allowed)
            (competitive_price <$> results)) as Hc.
  { apply Forall_fmap. eapply Forall_impl; [exact Hall|]. by intros pr (_ & _ & ?). }
  destruct (violations_none _ Hb) as [-> ->].
  destruct (violations_none _ Hd) as [-> ->].
  destruct (violations_none _ Hc) as [-> ->].
  done.
Qed.

(** The system [__init__] builds: new models, initialised from the
    dataset. *)
Lemma initialize_models_ok (sys sys' : system) (dataset : list dataset_row) :
  ledgers_ok sys →
  configured sys →
  System.initialize_models sys dataset = Some sys' →
  ledgers_ok sys' ∧ configured sys'.
Proof.
  intros (Hb & Hd & Hc) Hcf. unfold System.initialize_models.
  destruct (System.locations_dict dataset) as [locs|]; [|done].
  intros [= <-]. split; [|done].
  repeat split; cbn; by apply ok_initialize.
Qed.

Lemma new_system_ok : ledgers_ok System.new ∧ configured System.new.
Proof. split; [repeat split; apply ok_empty|done]. Qed.

Lemma run_demo_simulation_spec_witness :
  ∃ sys0 results sys',
    System.initialize_models System.new
      [DatasetRow 1 0 0 Scenario.row0; DatasetRow 2 0 0.001 Scenario.row0] = Some sys0 ∧
    System.run_demo_simulation sys0
      [DatasetRow 1 0 0 Scenario.row0; DatasetRow 2 0 0.001 Scenario.row0] =
      (match results with [] => None | _ :: _ => Some results end, sys') ∧
    length results = 2%nat ∧
    System.violations (competitive_price <$> results) = 0%nat.
Proof.
  destruct (locations_dict_Some
              [DatasetRow 1 0 0 Scenario.row0; DatasetRow 2 0 0.001 Scenario.row0])
    as (locs & Hlocs & _).
  eexists. unfold System.initialize_models at 1. rewrite Hlocs. cbn [mbind option_bind].
  match goal with |- ∃ results sys', Some ?s0 = _ ∧ _ =>
    destruct (run_demo_simulation_spec s0
                [DatasetRow 1 0 0 Scenario.row0; DatasetRow 2 0 0.001 Scenario.row0])
      as (results & sys' & Hrun & Hlen & _ & _ & _ & Hv & _)
  end.
  - repeat split; cbn; apply ok_initialize, ok_empty.
  - done.
  - exists results, sys'. done.
Defined.

(** X23. When the baseline model raises on a row, because the unit has a
    current price but no history, the row yields no result, the demand and
    the competitive model are not called for it and stay as they were, and
    the baseline ledger keeps the new current price without any history for
    the unit: the write of the price precedes the failing append. *)
Theorem process_row_raise (sys : system) (r : dataset_row) (c : R) :
  current_prices (Baseline.prices (baseline sys)) !! row_space_id r = Some c →
  price_history (Baseline.prices (baseline sys)) !! row_space_id r = None →
  ∃ sys', System.process_row sys r = (None, sys') ∧
    demand sys' = demand sys ∧
    competitive sys' = competitive sys ∧
    current_prices (Baseline.prices (baseline sys')) !! row_space_id r =
      Some (Baseline.next_price (baseline sys) c (occupancy_rate (feats (row_data r)))) ∧
    price_history (Baseline.prices (baseline sys')) !! row_space_id r = None.
Proof.
  intros Hc Hh.
  pose proof (key_error_raise (BaselineS (baseline sys)) (row_space_id r)
                (row_data r) c Hc Hh) as Hup.
  cbn in Hup. unfold System.process_row.
  destruct (Baseline.update_price _ _ _) as [[bp b']|]; [done|].
  eexists. split; [reflexivity|]. cbn.
  unfold System.baseline_after_raise, Ledger.vivify. rewrite Hc. cbn. rewrite Hc. cbn.
  rewrite lookup_insert_eq. done.
Qed.

Lemma process_row_raise_witness :
  ∃ sys', System.process_row
            (System (Baseline.Model 10.0 0.5 (Ledger {[1%Z := 10.0]} ∅))
                    Demand.default Competitive.default)
            (DatasetRow 1 0 0 Scenario.row0) = (None, sys') ∧
          demand sys' = Demand.default.
Proof.
  destruct (process_row_raise
              (System (Baseline.Model 10.0 0.5 (Ledger {[1%Z := 10.0]} ∅))
                      Demand.default Competitive.default)
              (DatasetRow 1 0 0 Scenario.row0) 10.0) as (sys' & Hp & Hd & _).
  - cbn. apply lookup_singleton_eq.
  - cbn. apply lookup_empty.
  - exists sys'. done.
Defined.

(** X24. A competitor scan sees the neighbours' latest prices: after
    [update_price] for unit [y] returned [p], the competitors of another
    unit [x] are those it had before, with the entry of [y], if any, now
    carrying the price [p]. *)
Theorem competitors_see_update (m m' : Competitive.model) (x y : Z) (f : features)
    (occ cap : Z) (p : R) (c : Competitive.competitor) :
  Ledger.ok (Competitive.prices m) →
  y ≠ x →
  Competitive.update_price m y f occ cap = Some (p, m') →
  c ∈ Competitive.find_competitors m' x ↔
  ∃ c0, c0 ∈ Competitive.find_competitors m x ∧
        c = if decide (Competitive.space_id c0 = y)
            then Competitive.Competitor y (Competitive.distance c0) p
            else c0.
Proof.
  intros Hok Hne Hup.
  assert (Engine.update_price (CompetitiveS m) y (Row f occ cap) = Some (p, CompetitiveS m'))
    as Hup' by (cbn; by rewrite Hup).
  destruct (update_price_inv (CompetitiveS m) y (Row f occ cap) p (CompetitiveS m') Hok Hup')
    as (_ & _ & Hb & Hl & Hc & _ & Hfr).
  cbn in Hb, Hl, Hc, Hfr.
  assert (∀ z, Competitive.get_current_price m' z =
               if decide (z = y) then p else Competitive.get_current_price m z) as Hget.
  { intros z. unfold Competitive.get_current_price, get_current_price, Py.get.
    destruct (decide (z = y)) as [->|Hz]; [by rewrite Hc|].
    destruct (Hfr z Hz) as [-> _]. by rewrite Hb. }
  destruct (Competitive.lookup_location x (Competitive.locations m)) as [cur|] eqn:Hx.
  - assert (Competitive.lookup_location x (Competitive.locations m') = Some cur) as Hx'
      by (by rewrite Hl).
    rewrite (elem_of_find_competitors m' x cur c Hx'). split.
    + intros (z & loc & Hin & Hzx & Hle & ->). rewrite Hl in Hin.
      exists (Competitive.Competitor z (Competitive.apart cur loc)
                (Competitive.get_current_price m z)).
      split; [apply (elem_of_find_competitors m x cur _ Hx); by exists z, loc|].
      cbn. rewrite Hget. by destruct (decide (z = y)) as [->|].
    + intros (c0 & Hc0 & ->).
      destruct (proj1 (elem_of_find_competitors m x cur c0 Hx) Hc0)
        as (z & loc & Hin & Hzx & Hle & ->). cbn.
      exists z, loc. rewrite Hl. split; [done|]. split; [done|]. split; [done|].
      rewrite Hget. by destruct (decide (z = y)) as [->|].
  - assert (Competitive.find_competitors m x = []) as E
      by (unfold Competitive.find_competitors; by rewrite Hx).
    assert (Competitive.find_competitors m' x = []) as E'
      by (unfold Competitive.find_competitors; by rewrite Hl, Hx).
    rewrite E, E'. split; [by intros ?%elem_of_nil|].
    by intros (c0 & ?%elem_of_nil & _).
Qed.

Lemma competitors_see_update_witness :
  ∃ p m', Competitive.update_price Scenario.m2 2 Scenario.f0 40 50 = Some (p, m') ∧
          Competitive.Competitor 2 0.001 p ∈ Competitive.find_competitors m' 1.
Proof.
  assert (Ledger.ok (Competitive.prices Scenario.m2)) as Hok
    by apply ok_initialize, ok_empty.
  destruct (competitive_update_total Scenario.m2 2 Scenario.f0 40 50 Hok) as (l' & Hup & _).
  eexists _, _. split; [exact Hup|].
  refine (proj2 (competitors_see_update Scenario.m2 _ 1 2 Scenario.f0 40 50 _ _
                   Hok _ Hup) _); [done|].
  exists (Competitive.Competitor 2 0.001 10.0). rewrite two_units_competitors.
  split; [apply list_elem_of_here|]. cbn. by rewrite decide_True.
Defined.
